(** * Automatic Apollo cache updates: a shallow embedding of [src/offline.ts]

    The development follows the source file top to bottom: the JavaScript
    values the code manipulates, the configuration store, the intent
    classifier [getOpTypeFromOperationName], the update strategies of
    [getUpdater], the orchestrator [updateCache] and the two option
    builders [getMutationOptions] and [getSubscriptionOptions].

    Modelling conventions.
    - A JavaScript number is an IEEE 754 double ([spec_float]); [===] on
      numbers is [SFeqb], so [NaN] differs from itself and the two zeros are
      equal.
    - An object or an array carries the identity ([ref]) of its heap cell:
      [===] on two objects compares identities, never contents.  Code that
      allocates a container ([filter], [map], a spread literal) receives the
      identity of the new cell as an argument named [fresh].
    - An object is the list of its own enumerable properties in enumeration
      order.  Property reads see own properties only: members inherited from
      the built-in prototypes are outside the model.
    - A call that can throw returns a [completion].
    - Functions, symbols and big integers are not values here: a GraphQL
      result holds none. *)

From Stdlib Require Import List String Ascii Bool ZArith NArith Arith Lia.
From Stdlib Require Import Floats.SpecFloat Numbers.DecimalString.
Import ListNotations.
Local Open Scope string_scope.
Local Open Scope list_scope.

(** ** JavaScript values *)

Definition ref := nat.

Unset Elimination Schemes.
Inductive value : Type :=
| VUndefined
| VNull
| VBool (b : bool)
| VNumber (x : spec_float)
| VString (s : string)
| VObject (r : ref) (props : list (string * value))
| VArray (r : ref) (elems : list value).
Set Elimination Schemes.

(** The double nearest to an integer, as a numeric literal denotes it. *)
Definition js_int (z : Z) : spec_float := binary_normalize 53 1024 z 0 false.

Definition VInt (z : Z) : value := VNumber (js_int z).

(** [!!v] *)
Definition truthy (v : value) : bool :=
  match v with
  | VUndefined | VNull => false
  | VBool b => b
  | VNumber (S754_zero _) | VNumber S754_nan => false
  | VNumber _ => true
  | VString s => negb (String.eqb s "")
  | VObject _ _ | VArray _ _ => true
  end.

(** [a === b] *)
Definition strict_eq (a b : value) : bool :=
  match a, b with
  | VUndefined, VUndefined => true
  | VNull, VNull => true
  | VBool x, VBool y => Bool.eqb x y
  | VNumber x, VNumber y => SFeqb x y
  | VString x, VString y => String.eqb x y
  | VObject r1 _, VObject r2 _ => Nat.eqb r1 r2
  | VArray r1 _, VArray r2 _ => Nat.eqb r1 r2
  | _, _ => false
  end.

(** [Array.isArray(v)] *)
Definition isArray (v : value) : bool :=
  match v with VArray _ _ => true | _ => false end.

(** ** Completions *)

Inductive exn : Type :=
| TypeError
| HostError (msg : string).

Inductive completion (A : Type) : Type :=
| Normal (a : A)
| Throw (e : exn).

Arguments Normal {A} a.
Arguments Throw {A} e.

Definition bind {A B : Type} (c : completion A) (k : A -> completion B)
  : completion B :=
  match c with
  | Normal a => k a
  | Throw e => Throw e
  end.

Notation "x <- c ;; k" := (bind c (fun x => k))
  (at level 61, c at next level, right associativity).

(** [mapM]: [Array.prototype.map] with a callback that may throw. *)
Fixpoint mapM {A B : Type} (f : A -> completion B) (l : list A)
  : completion (list B) :=
  match l with
  | [] => Normal []
  | x :: r => y <- f x ;; ys <- mapM f r ;; Normal (y :: ys)
  end.

(** [Array.prototype.filter] with a predicate that may throw. *)
Fixpoint filterM {A : Type} (f : A -> completion bool) (l : list A)
  : completion (list A) :=
  match l with
  | [] => Normal []
  | x :: r =>
      b <- f x ;; ys <- filterM f r ;; Normal (if b then x :: ys else ys)
  end.

(** ** Own properties *)

(** The property key of array index [n]. *)
Definition index_key (n : nat) : string :=
  NilZero.string_of_uint (Nat.to_uint n).

Fixpoint lookup {A : Type} (k : string) (props : list (string * A))
  : option A :=
  match props with
  | [] => None
  | (k', v) :: rest => if String.eqb k' k then Some v else lookup k rest
  end.

Fixpoint indexed {A : Type} (n : nat) (l : list A) : list (string * A) :=
  match l with
  | [] => []
  | x :: r => (index_key n, x) :: indexed (S n) r
  end.

Fixpoint chars (s : string) : list value :=
  match s with
  | EmptyString => []
  | String c r => VString (String c EmptyString) :: chars r
  end.

(** The own enumerable properties, in enumeration order: what a spread
    [{...v}] copies.  [null] and [undefined] spread to nothing. *)
Definition own_entries (v : value) : list (string * value) :=
  match v with
  | VObject _ props => props
  | VArray _ elems => indexed 0 elems
  | VString s => indexed 0 (chars s)
  | _ => []
  end.

(** [Object.keys(v)] *)
Definition Object_keys (v : value) : completion (list string) :=
  match v with
  | VUndefined | VNull => Throw TypeError
  | _ => Normal (map fst (own_entries v))
  end.

(** [v[k]] *)
Definition get_prop (v : value) (k : string) : completion value :=
  match v with
  | VUndefined | VNull => Throw TypeError
  | VObject _ props =>
      Normal (match lookup k props with Some x => x | None => VUndefined end)
  | VArray _ elems =>
      if String.eqb k "length" then Normal (VInt (Z.of_nat (List.length elems)))
      else Normal (match lookup k (indexed 0 elems) with
                   | Some x => x | None => VUndefined end)
  | VString s =>
      if String.eqb k "length" then Normal (VInt (Z.of_nat (String.length s)))
      else Normal (match lookup k (indexed 0 (chars s)) with
                   | Some x => x | None => VUndefined end)
  | VBool _ | VNumber _ => Normal VUndefined
  end.

(** [o[k] = v] on the property list of an object: an existing property keeps
    its place, a new one is appended. *)
Fixpoint set_prop {A : Type} (k : string) (v : A) (props : list (string * A))
  : list (string * A) :=
  match props with
  | [] => [(k, v)]
  | (k', v') :: rest =>
      if String.eqb k' k then (k, v) :: rest else (k', v') :: set_prop k v rest
  end.

(** [{...a, ...b}] on property lists. *)
Definition spread {A : Type} (a b : list (string * A)) : list (string * A) :=
  fold_left (fun acc kv => set_prop (fst kv) (snd kv) acc) b
            (fold_left (fun acc kv => set_prop (fst kv) (snd kv) acc) a []).

(** ** Configuration store *)

Inductive CacheOperationTypes : Type := AUTO | ADD | REMOVE | UPDATE.

Definition prefixesForRemove : list string :=
  ["delete"; "deleted"; "discard"; "discarded"; "erase"; "erased"; "remove";
   "removed"].

Definition prefixesForUpdate : list string :=
  ["update"; "updated"; "upsert"; "upserted"; "edit"; "edited"; "modify";
   "modified"; "analyze"; "activate"].

Definition prefixesForAdd : list string :=
  ["create"; "created"; "put"; "set"; "add"; "added"; "new"; "insert";
   "inserted"; "duplicate"; "import"].

(** The stored configuration.  The three lists and [idField] are set from the
    start; only the callback may be missing.  Caller-supplied callbacks are
    functions of their argument. *)
Record OfflineConfig : Type := {
  cfgPrefixesForRemove : list string;
  cfgPrefixesForUpdate : list string;
  cfgPrefixesForAdd : list string;
  cfgGetIdFieldFromObject : option (value -> string);
  cfgIdField : string
}.

Definition offlineConfig : OfflineConfig := {|
  cfgPrefixesForRemove := prefixesForRemove;
  cfgPrefixesForUpdate := prefixesForUpdate;
  cfgPrefixesForAdd := prefixesForAdd;
  cfgGetIdFieldFromObject := None;
  cfgIdField := "id"
|}.

(** The argument of [setConfig]: every key is optional. *)
Record ConfigOverride : Type := {
  ovPrefixesForRemove : option (list string);
  ovPrefixesForUpdate : option (list string);
  ovPrefixesForAdd : option (list string);
  ovGetIdFieldFromObject : option (value -> string);
  ovIdField : option string
}.

Definition or_else {A : Type} (o : option A) (d : A) : A :=
  match o with Some a => a | None => d end.

(** [Object.assign(offlineConfig, config)]: the keys present in [config]
    replace the stored ones.  The store is threaded explicitly. *)
Definition setConfig (store : OfflineConfig) (config : ConfigOverride)
  : OfflineConfig := {|
  cfgPrefixesForRemove :=
    or_else (ovPrefixesForRemove config) (cfgPrefixesForRemove store);
  cfgPrefixesForUpdate :=
    or_else (ovPrefixesForUpdate config) (cfgPrefixesForUpdate store);
  cfgPrefixesForAdd :=
    or_else (ovPrefixesForAdd config) (cfgPrefixesForAdd store);
  cfgGetIdFieldFromObject :=
    match ovGetIdFieldFromObject config with
    | Some f => Some f
    | None => cfgGetIdFieldFromObject store
    end;
  cfgIdField := or_else (ovIdField config) (cfgIdField store)
|}.

(** ** Intent classifier *)

Definition lower_ascii (c : ascii) : ascii :=
  let n := N_of_ascii c in
  if (65 <=? n)%N && (n <=? 90)%N then ascii_of_N (n + 32) else c.

(** [s.toLowerCase()] on operation names, which GraphQL restricts to ASCII
    letters, digits and the underscore. *)
Fixpoint toLowerCase (s : string) : string :=
  match s with
  | EmptyString => EmptyString
  | String c r => String (lower_ascii c) (toLowerCase r)
  end.

(** [s.startsWith(p)] *)
Definition startsWith (s p : string) : bool := String.prefix p s.

Definition comparator (opName : string) (prefix : string) : bool :=
  startsWith (toLowerCase opName) prefix
  || startsWith (toLowerCase opName) ("on" ++ prefix).

(** The rows the source iterates over, in source order. *)
Definition rows (cfg : OfflineConfig) : list (list string * CacheOperationTypes) :=
  [ (cfgPrefixesForAdd cfg, ADD);
    (cfgPrefixesForRemove cfg, REMOVE);
    (cfgPrefixesForUpdate cfg, UPDATE) ].

(** [forEach] runs its callback on every row: the [return] after the
    assignment ends one callback invocation, not the iteration.  The mutable
    [result] is the accumulator of the fold. *)
Definition getOpTypeFromOperationName (cfg : OfflineConfig) (opName : string)
  : CacheOperationTypes :=
  fold_left
    (fun result row =>
       let '(prefix, type) := row in
       if existsb (comparator opName) prefix then type else result)
    (rows cfg) AUTO.


(** ** Path utilities

    [utils.ts] is imported by [offline.ts] but is not among the sources at
    hand; its four helpers are written down from the specification. *)

(** Modelled from the spec: [findArrayInObject] of the missing [utils.ts].
    "Perform a deterministic depth-first traversal of the object graph
    starting at root.  At each object encountered, iterate its own keys in
    their natural enumeration order; the first key whose value is an array is
    the discovery target.  If a key's value is a nested object, recurse into
    it before moving to the next sibling key."  The empty path signals that
    the root is the array, [None] that no array was found. *)
Fixpoint findArrayInObject (root : value) : option (list string) :=
  match root with
  | VArray _ _ => Some []
  | VObject _ props =>
      (fix keys (l : list (string * value)) : option (list string) :=
         match l with
         | [] => None
         | (k, x) :: rest =>
             match findArrayInObject x with
             | Some p => Some (k :: p)
             | None => keys rest
             end
         end) props
  | _ => None
  end.

(** Modelled from the spec: the walk of [getValueByPath] of the missing
    [utils.ts], one property read per key of the path. *)
Fixpoint read_path (obj : value) (p : list string) : completion value :=
  match p with
  | [] => Normal obj
  | k :: rest => x <- get_prop obj k ;; read_path x rest
  end.

(** Modelled from the spec: [getValueByPath] of the missing [utils.ts].
    "Reads the value at a discovered path (or returns obj unchanged for the
    root-path/undefined case)." *)
Definition getValueByPath (obj : value) (path : option (list string))
  : completion value :=
  match path with
  | None => Normal obj
  | Some p => read_path obj p
  end.

(** Modelled from the spec: the write [container[k] = v] of [setValueByPath]
    of the missing [utils.ts].  The spec describes writes at discovered
    paths only, whose containers are objects; elsewhere the model reports a
    [TypeError]. *)
Definition assign (container : value) (k : string) (v : value)
  : completion value :=
  match container with
  | VObject r props => Normal (VObject r (set_prop k v props))
  | _ => Throw TypeError
  end.

(** Modelled from the spec: [setValueByPath] of the missing [utils.ts].
    "Writes a value at a discovered path by mutating the target container at
    the last path segment."  The containers are mutated in place, so each
    keeps its identity; the result is [obj] after the write. *)
Fixpoint setValueByPath (obj : value) (path : list string) (v : value)
  : completion value :=
  match path with
  | [] => Normal obj
  | [k] => assign obj k v
  | k :: rest =>
      inner <- get_prop obj k ;;
      inner' <- setValueByPath inner rest v ;;
      assign obj k inner'
  end.

(** Modelled from the spec: [pick] of the missing [utils.ts], "project an
    object to a subset of keys": the properties of the result are the listed
    keys that [obj] owns, with the values [obj] gives them. *)
Definition pick (obj : value) (keys : list string) : list (string * value) :=
  fold_left
    (fun acc k =>
       match lookup k (own_entries obj) with
       | Some v => set_prop k v acc
       | None => acc
       end)
    keys [].

(** ** Update strategies *)

(** [item[idField] !== newItem[idField]] *)
Definition differs (idField : string) (newItem item : value)
  : completion bool :=
  a <- get_prop item idField ;;
  b <- get_prop newItem idField ;;
  Normal (negb (strict_eq a b)).

(** [item[idField] === newItem[idField] ? newItem : item] *)
Definition replace_if_same (idField : string) (newItem item : value)
  : completion value :=
  a <- get_prop item idField ;;
  b <- get_prop newItem idField ;;
  Normal (if strict_eq a b then newItem else item).

(** [getUpdater(opType, idField)] is the function of [currentValue] and
    [newItem]; [fresh] is the identity of the container a call allocates. *)
Definition getUpdater (opType : CacheOperationTypes) (idField : string)
  (fresh : ref) (currentValue newItem : value) : completion value :=
  match opType with
  | ADD =>
      match currentValue with
      | VArray _ elems =>
          if truthy newItem then
            kept <- filterM (differs idField newItem) elems ;;
            Normal (VArray fresh (kept ++ [newItem]))
          else Normal (VArray fresh elems)
      | _ => Normal newItem
      end
  | UPDATE =>
      match currentValue with
      | VArray _ elems =>
          if truthy newItem then
            mapped <- mapM (replace_if_same idField newItem) elems ;;
            Normal (VArray fresh mapped)
          else Normal (VArray fresh elems)
      | _ =>
          keys <- Object_keys currentValue ;;
          Normal (VObject fresh
                    (spread (own_entries currentValue)
                       (pick newItem
                          (filter (fun key => negb (String.eqb key "__typename"))
                             keys))))
      end
  | REMOVE =>
      match currentValue with
      | VArray _ elems =>
          if truthy newItem then
            kept <- filterM (differs idField newItem) elems ;;
            Normal (VArray fresh kept)
          else Normal (VArray fresh elems)
      | _ => Normal VNull
      end
  | AUTO => Normal currentValue
  end.


(** ** Cache patch orchestrator *)

(** Control inside [updateCache]: a step continues, leaves the function
    through a bare [return], or raises. *)
Inductive flow (A : Type) : Type :=
| Continue (a : A)
| Return
| Raise (e : exn).

Arguments Continue {A} a.
Arguments Return {A}.
Arguments Raise {A} e.

Definition flow_bind {A B : Type} (c : flow A) (k : A -> flow B) : flow B :=
  match c with
  | Continue a => k a
  | Return => Return
  | Raise e => Raise e
  end.

Notation "x <~ c ;; k" := (flow_bind c (fun x => k))
  (at level 61, c at next level, right associativity).

Definition lift {A : Type} (c : completion A) : flow A :=
  match c with
  | Normal a => Continue a
  | Throw e => Raise e
  end.

(** [try { ... } catch { return; }] *)
Definition try_or_return {A : Type} (c : completion A) : flow A :=
  match c with
  | Normal a => Continue a
  | Throw _ => Return
  end.

Definition or_undefined (o : option value) : value :=
  match o with Some v => v | None => VUndefined end.

Section Orchestrator.

(** The GraphQL syntax tree and [resultKeyNameFromField] come from the
    [graphql] and [apollo-utilities] packages. *)
Variable FieldNode : Type.
Variable resultKeyNameFromField : FieldNode -> string.

(** [selectionSet.selections] of an operation definition. *)
Record OperationDefinitionNode : Type := {
  selections : list FieldNode
}.

Record DocumentNode : Type := {
  definitions : list OperationDefinitionNode
}.

(** Reading [definitions[0].selectionSet] or the field handed to
    [resultKeyNameFromField] fails on [undefined]. *)
Definition getOperationFieldName (operation : DocumentNode)
  : completion string :=
  match definitions operation with
  | [] => Throw TypeError
  | def :: _ =>
      match selections def with
      | [] => Throw TypeError
      | field :: _ => Normal (resultKeyNameFromField field)
      end
  end.

Definition Variables := list (string * value).

(** [QueryWithVariables | DocumentNode] *)
Inductive UpdateQuery : Type :=
| BareDocument (query : DocumentNode)
| QueryWithVariables (query : DocumentNode) (variables : option Variables).

(** [updateQuery.query || updateQuery] *)
Definition query_of (updateQuery : UpdateQuery) : DocumentNode :=
  match updateQuery with
  | BareDocument d => d
  | QueryWithVariables q _ => q
  end.

(** [updateQuery.variables || {}] *)
Definition variables_of (updateQuery : UpdateQuery) : Variables :=
  match updateQuery with
  | BareDocument _ => []
  | QueryWithVariables _ vars => or_else vars []
  end.

(** What [readQuery] hands back: [null], or the result object with its
    identity and properties. *)
Definition CachedQueryResult := option (ref * list (string * value)).

(** The cache collaborator, over the state [Cache] it keeps. *)
Variable Cache : Type.

Record DataProxy : Type := {
  readQuery :
    DocumentNode -> Variables -> Cache -> completion CachedQueryResult;
  writeQuery :
    DocumentNode -> Variables -> list (string * value) -> Cache ->
    completion Cache
}.

(** [OfflineOptions]: the update recipe. *)
Record OfflineOptions : Type := {
  updateQuery : option UpdateQuery;
  idField : option string;
  operationType : option CacheOperationTypes;
  mapResultToUpdate : option (value -> value)
}.

(** One recorded call [writeQuery({query, variables, data})]. *)
Definition WriteCall := (DocumentNode * Variables * list (string * value))%type.

(** [idField || offlineConfig.getIdFieldFromObject?.(mutatedItem)
     || offlineConfig.idField] *)
Definition nonempty (s : string) : bool := negb (String.eqb s "").

Definition resolve_idField (cfg : OfflineConfig) (idField : option string)
  (mutatedItem : value) : string :=
  let configured :=
    match cfgGetIdFieldFromObject cfg with
    | Some f => if nonempty (f mutatedItem) then f mutatedItem
                else cfgIdField cfg
    | None => cfgIdField cfg
    end in
  match idField with
  | Some s => if nonempty s then s else configured
  | None => configured
  end.

(** [produce(base, recipe)] of the immer package: the recipe runs on a draft
    of [base] and the draft it leaves is the result.  The draft is threaded
    as a value, so [base] itself is out of the recipe's reach. *)
Definition produce (base : list (string * value))
  (recipe : list (string * value) -> completion (list (string * value)))
  : completion (list (string * value)) :=
  recipe base.

(** The recipe handed to [produce]: it runs on the draft of the cached
    result and leaves the patched draft.  [setValueByPath] writes inside
    the container the draft holds under [queryField], so the draft sees
    that container after the write. *)
Definition recipe (updaterFn : value -> value -> completion value)
  (queryField : string) (mutatedItem : value)
  (draft : list (string * value)) : completion (list (string * value)) :=
  let opResultCachedValue := or_undefined (lookup queryField draft) in
  let path := findArrayInObject opResultCachedValue in
  current <- getValueByPath opResultCachedValue path ;;
  update <- updaterFn current mutatedItem ;;
  match path with
  | None | Some [] => Normal (set_prop queryField update draft)
  | Some p =>
      written <- setValueByPath opResultCachedValue p update ;;
      Normal (set_prop queryField written draft)
  end.

(** Everything [updateCache] does before the final [writeQuery]: the
    arguments of that call, unless the function returned or raised first. *)
Definition patch (cfg : OfflineConfig) (fresh : ref) (client : DataProxy)
  (data : value) (opts : OfflineOptions) (cache : Cache) : flow WriteCall :=
  if negb (truthy data) then Return else
  keys <~ lift (Object_keys data) ;;
  let opFieldName := hd_error keys in
  let opType :=
    match or_else (operationType opts) AUTO with
    | AUTO => getOpTypeFromOperationName cfg (or_else opFieldName "")
    | explicit => explicit
    end in
  field <~ lift (get_prop data (or_else opFieldName "undefined")) ;;
  if negb (truthy field) then Return else
  let mutatedItem :=
    match mapResultToUpdate opts with
    | Some f => f data
    | None => field
    end in
  target <~ match updateQuery opts with
            | Some u => Continue u
            | None => Raise TypeError
            end ;;
  let query := query_of target in
  let queryVars := variables_of target in
  queryField <~ lift (getOperationFieldName query) ;;
  cachedQueryResult <~ try_or_return (readQuery client query queryVars cache) ;;
  match cachedQueryResult with
  | None => Return
  | Some (_, props) =>
      let idFieldName := resolve_idField cfg (idField opts) mutatedItem in
      let updaterFn := getUpdater opType idFieldName fresh in
      updatedQueryData <~
        lift (produce props (recipe updaterFn queryField mutatedItem)) ;;
      Continue (query, queryVars, updatedQueryData)
  end.

(** [updateCache]: the recorded [writeQuery] calls and how the function
    completes, with the cache state it leaves. *)
Definition updateCache (cfg : OfflineConfig) (fresh : ref)
  (client : DataProxy) (data : value) (opts : OfflineOptions) (cache : Cache)
  : list WriteCall * completion Cache :=
  match patch cfg fresh client data opts cache with
  | Continue (query, queryVars, updatedQueryData) =>
      ([(query, queryVars, updatedQueryData)],
       writeQuery client query queryVars updatedQueryData cache)
  | Return => ([], Normal cache)
  | Raise e => ([], Throw e)
  end.

(** ** Option builders *)

(** The value of a hook option: plain data, a function the caller wrote
    (known by its identity), or the closure a builder creates, which
    captures the recipe. *)
Inductive OptionValue : Type :=
| Plain (v : value)
| CallerFunction (r : ref)
| InjectedCallback (captured : OfflineOptions).

Definition truthy_option (o : option OptionValue) : bool :=
  match o with
  | None => false
  | Some (Plain v) => truthy v
  | Some (CallerFunction _) | Some (InjectedCallback _) => true
  end.

(** Calling the injected closure with the client and the result data. *)
Definition invoke_injected (cfg : OfflineConfig) (fresh : ref)
  (captured : OfflineOptions) (client : DataProxy) (data : value)
  (cache : Cache) : list WriteCall * completion Cache :=
  updateCache cfg fresh client data captured cache.

(** The argument of a builder after destructuring: the four recipe fields
    and [...options], the remaining own properties. *)
Definition getMutationOptions (offline : OfflineOptions)
  (options : list (string * OptionValue)) : list (string * OptionValue) :=
  match updateQuery offline with
  | None => options
  | Some _ =>
      if truthy_option (lookup "update" options) then options
      else spread [("update", InjectedCallback offline)] options
  end.

Definition getSubscriptionOptions (offline : OfflineOptions)
  (options : list (string * OptionValue)) : list (string * OptionValue) :=
  match updateQuery offline with
  | None => options
  | Some _ =>
      if truthy_option (lookup "onSubscriptionData" options) then options
      else spread [("onSubscriptionData", InjectedCallback offline)] options
  end.

End Orchestrator.

Arguments selections {FieldNode} _.
Arguments definitions {FieldNode} _.
Arguments BareDocument {FieldNode} query.
Arguments QueryWithVariables {FieldNode} query variables.
Arguments readQuery {FieldNode Cache} _ _ _ _.
Arguments writeQuery {FieldNode Cache} _ _ _ _ _.
Arguments updateQuery {FieldNode} _.
Arguments idField {FieldNode} _.
Arguments operationType {FieldNode} _.
Arguments mapResultToUpdate {FieldNode} _.
Arguments getOperationFieldName {FieldNode} resultKeyNameFromField operation.
Arguments query_of {FieldNode} updateQuery.
Arguments variables_of {FieldNode} updateQuery.
Arguments patch {FieldNode} resultKeyNameFromField {Cache}
  cfg fresh client data opts cache.
Arguments updateCache {FieldNode} resultKeyNameFromField {Cache}
  cfg fresh client data opts cache.
Arguments invoke_injected {FieldNode} resultKeyNameFromField {Cache}
  cfg fresh captured client data cache.
Arguments truthy_option {FieldNode} o.
Arguments getMutationOptions {FieldNode} offline options.
Arguments getSubscriptionOptions {FieldNode} offline options.
Arguments Plain {FieldNode} v.
Arguments CallerFunction {FieldNode} r.
Arguments InjectedCallback {FieldNode} captured.

(** ** Vocabulary of the statements *)

(** The prefix list the configuration keeps for a category. *)
Definition prefixes_of (cfg : OfflineConfig) (c : CacheOperationTypes)
  : list string :=
  match c with
  | ADD => cfgPrefixesForAdd cfg
  | REMOVE => cfgPrefixesForRemove cfg
  | UPDATE => cfgPrefixesForUpdate cfg
  | AUTO => []
  end.

(** The lowercased name starts with a prefix of category [c], or with "on"
    followed by such a prefix. *)
Definition names_category (cfg : OfflineConfig) (c : CacheOperationTypes)
  (opName : string) : Prop :=
  exists p, In p (prefixes_of cfg c) /\
            (startsWith (toLowerCase opName) p = true \/
             startsWith (toLowerCase opName) ("on" ++ p) = true).

(** [setConfig({prefixesForUpdate: [...prefixesForUpdate, 'set']})] *)
Definition set_is_update : ConfigOverride := {|
  ovPrefixesForRemove := None;
  ovPrefixesForUpdate := Some (prefixesForUpdate ++ ["set"]);
  ovPrefixesForAdd := None;
  ovGetIdFieldFromObject := None;
  ovIdField := None
|}.

(** The patterns a category tests: each prefix, bare and behind "on". *)
Definition patterns (l : list string) : list string :=
  l ++ map (fun p => ("on" ++ p)%string) l.

(** No string of one list is a prefix of a string of the other. *)
Definition unrelated (l1 l2 : list string) : bool :=
  forallb (fun p =>
    forallb (fun q => negb (String.prefix p q || String.prefix q p)) l2) l1.

(** A value whose properties can be read: anything but [null] and
    [undefined]. *)
Definition object_coercible (v : value) : bool :=
  match v with
  | VUndefined | VNull => false
  | _ => true
  end.

(** [item[idField] === newItem[idField]] *)
Definition same_identity (idField : string) (newItem item : value) : bool :=
  match get_prop item idField, get_prop newItem idField with
  | Normal a, Normal b => strict_eq a b
  | _, _ => false
  end.

(** No two elements carry strictly equal identity values. *)
Definition distinct_ids (idField : string) (l : list value) : Prop :=
  ForallOrdPairs (fun a b => same_identity idField a b = false) l.

Definition keys_of (props : list (string * value)) : list string :=
  map fst props.

(** The fixtures of [test/offline.test.ts]. *)
Definition post (r : ref) (id user_id : Z) (title date : string) : value :=
  VObject r [("__typename", VString "post"); ("id", VInt id);
             ("user_id", VInt user_id); ("title", VString title);
             ("date", VString date)].

Definition post1 := post 1 1 1 "A day on the beach" "2018-01-01".
Definition post2 := post 2 24 10 "Coding for joy" "2018-12-24".
Definition post3 := post 3 25 9 "On the road" "2018-12-25".
Definition newPost := post 4 26 11 "New post" "2018-12-31".
Definition posts := VArray 5 [post1; post2; post3].

(** [{id: post3.id, title: 'Updated post', __typename: 'post'}] *)
Definition updatedPost : value :=
  VObject 6 [("id", VInt 25); ("title", VString "Updated post");
             ("__typename", VString "post")].

(** Induction on values that reaches inside objects and arrays. *)
Fixpoint value_nested_ind (P : value -> Prop)
  (Hundefined : P VUndefined) (Hnull : P VNull)
  (Hbool : forall b, P (VBool b)) (Hnumber : forall x, P (VNumber x))
  (Hstring : forall s, P (VString s))
  (Hobject : forall r props,
      Forall (fun kv => P (snd kv)) props -> P (VObject r props))
  (Harray : forall r elems, Forall P elems -> P (VArray r elems))
  (v : value) : P v :=
  let rec := value_nested_ind P Hundefined Hnull Hbool Hnumber Hstring
               Hobject Harray in
  match v with
  | VUndefined => Hundefined
  | VNull => Hnull
  | VBool b => Hbool b
  | VNumber x => Hnumber x
  | VString s => Hstring s
  | VObject r props =>
      Hobject r props
        ((fix each (l : list (string * value))
            : Forall (fun kv => P (snd kv)) l :=
            match l with
            | [] => Forall_nil _
            | kv :: rest => Forall_cons kv (rec (snd kv)) (each rest)
            end) props)
  | VArray r elems =>
      Harray r elems
        ((fix each (l : list value) : Forall P l :=
            match l with
            | [] => Forall_nil _
            | x :: rest => Forall_cons x (rec x) (each rest)
            end) elems)
  end.

Fixpoint distinct (l : list string) : bool :=
  match l with
  | [] => true
  | k :: rest => negb (existsb (String.eqb k) rest) && distinct rest
  end.

(** No object, at any depth, lists a key twice: the shape of every
    JavaScript object. *)
Fixpoint well_formed (v : value) : bool :=
  match v with
  | VObject _ props =>
      distinct (map fst props)
      && (fix each (l : list (string * value)) : bool :=
            match l with
            | [] => true
            | (_, x) :: rest => well_formed x && each rest
            end) props
  | VArray _ elems =>
      (fix each (l : list value) : bool :=
         match l with
         | [] => true
         | x :: rest => well_formed x && each rest
         end) elems
  | _ => true
  end.

(** [reaches root p]: following the keys of [p] from [root] through nested
    objects ends at an array. *)
Inductive reaches : value -> list string -> Prop :=
| reaches_array r elems : reaches (VArray r elems) []
| reaches_property r props k x p :
    In (k, x) props -> reaches x p -> reaches (VObject r props) (k :: p).

(** [{featured: [post1], total: 10}] and the same with the count first. *)
Definition featured_first : value :=
  VObject 10 [("featured", VArray 11 [post1]); ("total", VInt 10)].

Definition total_first : value :=
  VObject 10 [("total", VInt 10); ("featured", VArray 11 [post1])].

(** [{drafts: {items: []}, posts: [post1]}]: an array nested under the first
    key and an array directly under the second. *)
Definition nested_before_sibling : value :=
  VObject 12 [("drafts", VObject 13 [("items", VArray 14 [])]);
              ("posts", VArray 15 [post1])].

(** The payload's operation field: the first key of [data]. *)
Definition operation_field (data : value) : option string :=
  match Object_keys data with
  | Normal keys => hd_error keys
  | Throw _ => None
  end.

(** The value the payload holds under its operation field; nothing can be
    read from an absent payload. *)
Definition operation_field_value (data : value) : value :=
  match get_prop data (or_else (operation_field data) "undefined") with
  | Normal v => v
  | Throw _ => VUndefined
  end.

(** Deep equality as the test suite's [toEqual] decides it: identities are
    ignored, arrays are compared element by element, and objects property
    by property, a property bound to [undefined] counting as a missing one. *)
Unset Elimination Schemes.
Inductive deep_equal : value -> value -> Prop :=
| deq_undefined : deep_equal VUndefined VUndefined
| deq_null : deep_equal VNull VNull
| deq_bool b : deep_equal (VBool b) (VBool b)
| deq_number x : deep_equal (VNumber x) (VNumber x)
| deq_string s : deep_equal (VString s) (VString s)
| deq_array r1 r2 xs ys :
    Forall2 deep_equal xs ys -> deep_equal (VArray r1 xs) (VArray r2 ys)
| deq_object r1 r2 ps qs :
    (forall k, deep_equal (or_undefined (lookup k ps))
                          (or_undefined (lookup k qs))) ->
    deep_equal (VObject r1 ps) (VObject r2 qs).
Set Elimination Schemes.

(** A client for the examples: it keeps the result of one query, misses
    until that result is written, and records what is written. *)
Definition one_query_client : DataProxy string (option (list (string * value))) := {|
  readQuery := fun _ _ cache =>
    match cache with
    | Some props => Normal (Some (20, props))
    | None => Throw (HostError "cache miss")
    end;
  writeQuery := fun _ _ data _ => Normal (Some data)
|}.

(** [query { posts { ... } }] and a recipe that only names it. *)
Definition postsQuery : DocumentNode string :=
  {| definitions := [ {| selections := ["posts"] |} ] |}.

Definition update_posts : OfflineOptions string := {|
  updateQuery := Some (BareDocument postsQuery);
  idField := None;
  operationType := None;
  mapResultToUpdate := None
|}.

(** The cache after [writeQuery({query: postsQuery, data: {posts}})]. *)
Definition primed : option (list (string * value)) := Some [("posts", posts)].

(** Payloads of the examples: [{createPost: newPost}], [{deletePost: post3}],
    [{updatePost: updatedPost}] and one whose field name tells nothing. *)
Definition createPost_payload : value := VObject 30 [("createPost", newPost)].
Definition deletePost_payload : value := VObject 31 [("deletePost", post3)].
Definition updatePost_payload : value := VObject 32 [("updatePost", updatedPost)].
Definition syncPost_payload : value := VObject 33 [("syncPost", newPost)].

(** Hook options in which the caller's callback slot is present but holds
    [undefined], as in [{update: props.onUpdate, variables: {}}] with no
    [onUpdate] passed down. *)
Definition undefined_update : list (string * OptionValue string) :=
  [("update", Plain VUndefined); ("variables", Plain (VObject 40 []))].

Definition undefined_onSubscriptionData : list (string * OptionValue string) :=
  [("onSubscriptionData", Plain VUndefined)].

(** The number of injected callbacks among the properties. *)
Definition injected_count {FieldNode : Type}
  (options : list (string * OptionValue FieldNode)) : nat :=
  List.length
    (filter (fun kv => match snd kv with InjectedCallback _ => true | _ => false end)
            options).

(** ** Vocabulary of the further properties *)

(** An ASCII capital letter, and a string that holds one. *)
Definition is_upper (c : ascii) : bool :=
  let n := N_of_ascii c in (65 <=? n)%N && (n <=? 90)%N.

Fixpoint has_upper (s : string) : bool :=
  match s with
  | EmptyString => false
  | String c r => is_upper c || has_upper r
  end.

(** [setConfig({prefixesForAdd: ['Create']})] *)
Definition capitalised_add : ConfigOverride := {|
  ovPrefixesForRemove := None;
  ovPrefixesForUpdate := None;
  ovPrefixesForAdd := Some ["Create"];
  ovGetIdFieldFromObject := None;
  ovIdField := None
|}.




(** [setConfig({idField: '_id'})] *)
Definition underscore_id : ConfigOverride := {|
  ovPrefixesForRemove := None;
  ovPrefixesForUpdate := None;
  ovPrefixesForAdd := None;
  ovGetIdFieldFromObject := None;
  ovIdField := Some "_id"
|}.

(** [null] or [undefined]. *)
Definition nullish (v : value) : bool := negb (object_coercible v).

(** [item[idField] !== undefined] *)
Definition identity_defined (idField : string) (item : value) : bool :=
  match get_prop item idField with
  | Normal VUndefined => false
  | Normal _ => true
  | Throw _ => false
  end.

(** The elements an updater other than the identity leaves for an array of
    [elems] and the item [newItem]. *)
Definition patched (opType : CacheOperationTypes) (idField : string)
  (newItem : value) (elems : list value) : list value :=
  if truthy newItem then
    match opType with
    | ADD =>
        filter (fun item => negb (same_identity idField newItem item)) elems
        ++ [newItem]
    | REMOVE =>
        filter (fun item => negb (same_identity idField newItem item)) elems
    | UPDATE =>
        map (fun item =>
               if same_identity idField newItem item then newItem else item)
            elems
    | AUTO => elems
    end
  else elems.

(** [{title: 'No id'}]: an item without the identity field. *)
Definition anonymous_post : value := VObject 50 [("title", VString "No id")].

(** The intent, the item and the identity field [updateCache] settles on. *)
Definition resolved_intent {FieldNode : Type} (cfg : OfflineConfig)
  (opts : OfflineOptions FieldNode) (data : value) : CacheOperationTypes :=
  match or_else (operationType opts) AUTO with
  | AUTO => getOpTypeFromOperationName cfg (or_else (operation_field data) "")
  | explicit => explicit
  end.

Definition resolved_item {FieldNode : Type} (opts : OfflineOptions FieldNode)
  (data : value) : value :=
  match mapResultToUpdate opts with
  | Some f => f data
  | None => operation_field_value data
  end.

Definition resolved_idField {FieldNode : Type} (cfg : OfflineConfig)
  (opts : OfflineOptions FieldNode) (data : value) : string :=
  resolve_idField cfg (idField opts) (resolved_item opts data).

(** A cached result whose list holds a [null]: [{posts: [post1, null]}]. *)
Definition primed_with_null : option (list (string * value)) :=
  Some [("posts", VArray 5 [post1; VNull])].

(** A cached single item, [{post: post3}], absent, [{post: null}], and the
    query and recipe that read it. *)
Definition primed_single : option (list (string * value)) :=
  Some [("post", post3)].

Definition primed_null : option (list (string * value)) :=
  Some [("post", VNull)].

Definition postQuery : DocumentNode string :=
  {| definitions := [ {| selections := ["post"] |} ] |}.

Definition update_post : OfflineOptions string := {|
  updateQuery := Some (BareDocument postQuery);
  idField := None;
  operationType := None;
  mapResultToUpdate := None
|}.

(** A recipe without a target query, and one with an explicit intent. *)
Definition no_target : OfflineOptions string := {|
  updateQuery := None;
  idField := None;
  operationType := None;
  mapResultToUpdate := None
|}.

Definition remove_from_posts : OfflineOptions string := {|
  updateQuery := Some (BareDocument postsQuery);
  idField := None;
  operationType := Some REMOVE;
  mapResultToUpdate := None
|}.

(** A document without definitions. *)
Definition empty_document : DocumentNode string := {| definitions := [] |}.




(** Whether the recipe names a target query. *)
Definition recipe_given {FieldNode : Type} (offline : OfflineOptions FieldNode)
  : bool :=
  match updateQuery offline with Some _ => true | None => false end.

(** Options of a caller who passes variables only. *)
Definition variables_only : list (string * OptionValue string) :=
  [("variables", Plain (VObject 40 []))].

(** A recipe whose document has no definitions. *)
Definition unreadable_target : OfflineOptions string := {|
  updateQuery := Some (BareDocument empty_document);
  idField := None;
  operationType := None;
  mapResultToUpdate := None
|}.

(** * Properties *)

(** ** Intent classifier *)

Lemma existsb_comparator cfg c opName :
  existsb (comparator opName) (prefixes_of cfg c) = true <->
  names_category cfg c opName.
Proof.
  unfold names_category. rewrite existsb_exists.
  split; intros [p [Hin H]]; exists p; split; auto.
  - unfold comparator in H. apply orb_true_iff in H. exact H.
  - unfold comparator. apply orb_true_iff. exact H.
Qed.

(** What the fold computes: the rows are all visited, so a later row
    overwrites the result of an earlier one. *)
Lemma getOpType_unfold cfg opName :
  getOpTypeFromOperationName cfg opName =
  if existsb (comparator opName) (cfgPrefixesForUpdate cfg) then UPDATE
  else if existsb (comparator opName) (cfgPrefixesForRemove cfg) then REMOVE
  else if existsb (comparator opName) (cfgPrefixesForAdd cfg) then ADD
  else AUTO.
Proof.
  unfold getOpTypeFromOperationName, rows. simpl.
  destruct (existsb (comparator opName) (cfgPrefixesForAdd cfg));
  destruct (existsb (comparator opName) (cfgPrefixesForRemove cfg));
  destruct (existsb (comparator opName) (cfgPrefixesForUpdate cfg));
  reflexivity.
Qed.

Lemma prefix_chain p q s :
  String.prefix p s = true -> String.prefix q s = true ->
  String.prefix p q = true \/ String.prefix q p = true.
Proof.
  revert p q. induction s as [|c s IH]; intros p q Hp Hq.
  - destruct p; [left; destruct q; reflexivity | discriminate].
  - destruct p as [|a p]; [left; destruct q; reflexivity|].
    destruct q as [|b q]; [right; reflexivity|].
    simpl in Hp, Hq.
    destruct (ascii_dec a c) as [->|]; [|discriminate].
    destruct (ascii_dec b c) as [->|]; [|discriminate].
    simpl. destruct (ascii_dec c c) as [_|n]; [|contradiction].
    apply IH; assumption.
Qed.

Lemma names_category_pattern cfg c opName :
  names_category cfg c opName ->
  exists pat, In pat (patterns (prefixes_of cfg c)) /\
              String.prefix pat (toLowerCase opName) = true.
Proof.
  intros [p [Hin [H|H]]].
  - exists p. split; [apply in_or_app; left; exact Hin | exact H].
  - exists ("on" ++ p)%string. split; [|exact H].
    apply in_or_app. right. apply in_map_iff. exists p. auto.
Qed.

Lemma unrelated_excludes l1 l2 s p q :
  unrelated l1 l2 = true -> In p l1 -> In q l2 ->
  String.prefix p s = true -> String.prefix q s = true -> False.
Proof.
  intros U Hp Hq Pp Pq. unfold unrelated in U.
  rewrite forallb_forall in U. specialize (U p Hp).
  rewrite forallb_forall in U. specialize (U q Hq).
  apply negb_true_iff in U. apply orb_false_iff in U. destruct U as [U1 U2].
  destruct (prefix_chain p q s Pp Pq); congruence.
Qed.

(** With the built-in lists no name belongs to two categories. *)
Lemma default_categories_exclusive opName c1 c2 :
  c1 <> c2 ->
  names_category offlineConfig c1 opName ->
  names_category offlineConfig c2 opName -> False.
Proof.
  intros Hne H1 H2.
  apply names_category_pattern in H1. destruct H1 as [p [Hp Pp]].
  apply names_category_pattern in H2. destruct H2 as [q [Hq Pq]].
  assert (U : unrelated (patterns (prefixes_of offlineConfig c1))
                        (patterns (prefixes_of offlineConfig c2)) = true).
  { destruct c1, c2; try congruence; try reflexivity;
      simpl in Hp, Hq; try contradiction. }
  exact (unrelated_excludes _ _ _ _ _ U Hp Hq Pp Pq).
Qed.

Lemma getOpType_AUTO_iff cfg opName :
  getOpTypeFromOperationName cfg opName = AUTO <->
  (forall c, c <> AUTO -> ~ names_category cfg c opName).
Proof.
  rewrite getOpType_unfold.
  pose proof (existsb_comparator cfg UPDATE opName) as HU.
  pose proof (existsb_comparator cfg REMOVE opName) as HR.
  pose proof (existsb_comparator cfg ADD opName) as HA.
  simpl in HU, HR, HA.
  destruct (existsb (comparator opName) (cfgPrefixesForUpdate cfg)) eqn:EU;
  [|destruct (existsb (comparator opName) (cfgPrefixesForRemove cfg)) eqn:ER;
    [|destruct (existsb (comparator opName) (cfgPrefixesForAdd cfg)) eqn:EA]].
  - split; [discriminate|]. intros H. exfalso.
    apply (H UPDATE); [discriminate | apply HU; reflexivity].
  - split; [discriminate|]. intros H. exfalso.
    apply (H REMOVE); [discriminate | apply HR; reflexivity].
  - split; [discriminate|]. intros H. exfalso.
    apply (H ADD); [discriminate | apply HA; reflexivity].
  - split; [|reflexivity]. intros _ c Hc Hn.
    destruct c; [congruence| | |].
    + apply HA in Hn. discriminate.
    + apply HR in Hn. discriminate.
    + apply HU in Hn. discriminate.
Qed.

Lemma getOpType_sound cfg opName c :
  c <> AUTO -> getOpTypeFromOperationName cfg opName = c ->
  names_category cfg c opName.
Proof.
  intros Hc. rewrite getOpType_unfold.
  destruct (existsb (comparator opName) (cfgPrefixesForUpdate cfg)) eqn:EU;
  [|destruct (existsb (comparator opName) (cfgPrefixesForRemove cfg)) eqn:ER;
    [|destruct (existsb (comparator opName) (cfgPrefixesForAdd cfg)) eqn:EA]];
  intros <-; try congruence.
  - apply (existsb_comparator cfg UPDATE). exact EU.
  - apply (existsb_comparator cfg REMOVE). exact ER.
  - apply (existsb_comparator cfg ADD). exact EA.
Qed.

(** The category found by the last matching row is the result, whatever the
    earlier rows found. *)
Lemma getOpType_last_row_wins cfg opName :
  (names_category cfg UPDATE opName ->
   getOpTypeFromOperationName cfg opName = UPDATE) /\
  (names_category cfg REMOVE opName -> ~ names_category cfg UPDATE opName ->
   getOpTypeFromOperationName cfg opName = REMOVE) /\
  (names_category cfg ADD opName -> ~ names_category cfg REMOVE opName ->
   ~ names_category cfg UPDATE opName ->
   getOpTypeFromOperationName cfg opName = ADD).
Proof.
  rewrite getOpType_unfold.
  rewrite <- (existsb_comparator cfg UPDATE opName).
  rewrite <- (existsb_comparator cfg REMOVE opName).
  rewrite <- (existsb_comparator cfg ADD opName).
  simpl.
  destruct (existsb (comparator opName) (cfgPrefixesForUpdate cfg));
  destruct (existsb (comparator opName) (cfgPrefixesForRemove cfg));
  destruct (existsb (comparator opName) (cfgPrefixesForAdd cfg));
  repeat split; intros; try reflexivity; try discriminate; congruence.
Qed.

Lemma getOpType_default_iff opName c :
  c <> AUTO ->
  (getOpTypeFromOperationName offlineConfig opName = c <->
   names_category offlineConfig c opName).
Proof.
  intros Hc. split; [apply getOpType_sound; exact Hc|].
  intros Hn.
  destruct (getOpType_last_row_wins offlineConfig opName) as [HU [HR HA]].
  destruct c; [congruence| | |].
  - apply HA; [exact Hn| |]; intros H;
      refine (default_categories_exclusive opName ADD _ _ Hn H); discriminate.
  - apply HR; [exact Hn|]; intros H;
      refine (default_categories_exclusive opName REMOVE _ _ Hn H); discriminate.
  - apply HU; exact Hn.
Qed.

(** C1, evaluated on the code.  After
    [setConfig({prefixesForUpdate: [...prefixesForUpdate, 'set']})] the name
    [setTitle] starts with the ADD prefix "set" and with the UPDATE prefix
    "set"; [getOpTypeFromOperationName] answers UPDATE, the category of the
    row visited last, not ADD. *)
Theorem getOpType_overlap_returns_last_category :
  let cfg := setConfig offlineConfig set_is_update in
  names_category cfg ADD "setTitle" /\
  names_category cfg UPDATE "setTitle" /\
  getOpTypeFromOperationName cfg "setTitle" = UPDATE.
Proof.
  simpl. repeat split.
  - exists "set". split; [simpl; tauto | left; reflexivity].
  - exists "set". split; [simpl; tauto | left; reflexivity].
Qed.

(** C7.  [getOpTypeFromOperationName] lowercases the name and tests, per
    category, whether it starts with a configured prefix or with "on"
    followed by one: the result is AUTO exactly when no category matches, a
    category that is returned always matches, and with the built-in lists a
    category is returned exactly when it matches.  The updater resolved for
    AUTO hands its first argument back.  The seven names of the test suite
    classify as the claim lists them. *)
Theorem getOpType_classifies_by_prefix :
  (forall cfg opName,
     getOpTypeFromOperationName cfg opName = AUTO <->
     (forall c, c <> AUTO -> ~ names_category cfg c opName)) /\
  (forall cfg opName c,
     c <> AUTO -> getOpTypeFromOperationName cfg opName = c ->
     names_category cfg c opName) /\
  (forall opName c,
     c <> AUTO ->
     (getOpTypeFromOperationName offlineConfig opName = c <->
      names_category offlineConfig c opName)) /\
  (forall idField fresh currentValue newItem,
     getUpdater (getOpTypeFromOperationName offlineConfig "") idField fresh
       currentValue newItem = Normal currentValue /\
     getUpdater AUTO idField fresh currentValue newItem = Normal currentValue) /\
  map (getOpTypeFromOperationName offlineConfig)
      ["createPost"; "newPost"; "insertPost"] = [ADD; ADD; ADD] /\
  map (getOpTypeFromOperationName offlineConfig)
      ["updatePost"; "editPost"] = [UPDATE; UPDATE] /\
  map (getOpTypeFromOperationName offlineConfig)
      ["removePost"; "deletePost"] = [REMOVE; REMOVE] /\
  getOpTypeFromOperationName offlineConfig "onCreatePost" = ADD.
Proof.
  split; [exact getOpType_AUTO_iff|].
  split; [exact getOpType_sound|].
  split; [exact getOpType_default_iff|].
  repeat split; reflexivity.
Qed.

(** ** Update strategies *)

Lemma truthy_coercible v : truthy v = true -> object_coercible v = true.
Proof. destruct v; simpl; congruence. Qed.

Lemma get_prop_coercible v k :
  object_coercible v = true -> exists x, get_prop v k = Normal x.
Proof.
  destruct v; simpl; try discriminate; intros _; eauto;
    destruct (String.eqb k "length"); eauto.
Qed.

Lemma differs_same_identity idField newItem item :
  object_coercible newItem = true -> object_coercible item = true ->
  differs idField newItem item =
  Normal (negb (same_identity idField newItem item)).
Proof.
  intros Hn Hi. unfold differs, same_identity.
  destruct (get_prop_coercible item idField Hi) as [a ->].
  destruct (get_prop_coercible newItem idField Hn) as [b ->].
  reflexivity.
Qed.

Lemma replace_same_identity idField newItem item :
  object_coercible newItem = true -> object_coercible item = true ->
  replace_if_same idField newItem item =
  Normal (if same_identity idField newItem item then newItem else item).
Proof.
  intros Hn Hi. unfold replace_if_same, same_identity.
  destruct (get_prop_coercible item idField Hi) as [a ->].
  destruct (get_prop_coercible newItem idField Hn) as [b ->].
  reflexivity.
Qed.

Lemma filterM_differs idField newItem elems :
  object_coercible newItem = true ->
  forallb object_coercible elems = true ->
  filterM (differs idField newItem) elems =
  Normal (filter (fun item => negb (same_identity idField newItem item)) elems).
Proof.
  intros Hn. induction elems as [|x l IH]; intros Hl; [reflexivity|].
  simpl in Hl. apply andb_true_iff in Hl. destruct Hl as [Hx Hl].
  simpl. rewrite (differs_same_identity _ _ _ Hn Hx). simpl.
  rewrite (IH Hl). simpl.
  destruct (same_identity idField newItem x); reflexivity.
Qed.

Lemma mapM_replace idField newItem elems :
  object_coercible newItem = true ->
  forallb object_coercible elems = true ->
  mapM (replace_if_same idField newItem) elems =
  Normal (map (fun item =>
                 if same_identity idField newItem item then newItem else item)
              elems).
Proof.
  intros Hn. induction elems as [|x l IH]; intros Hl; [reflexivity|].
  simpl in Hl. apply andb_true_iff in Hl. destruct Hl as [Hx Hl].
  simpl. rewrite (replace_same_identity _ _ _ Hn Hx). simpl.
  rewrite (IH Hl). reflexivity.
Qed.

Lemma SFeqb_sym x y : SFeqb x y = SFeqb y x.
Proof.
  unfold SFeqb, SFcompare.
  destruct x as [sx|sx| |sx mx ex], y as [sy|sy| |sy my ey];
    try reflexivity; try (destruct sx; reflexivity);
    try (destruct sy; reflexivity);
    try (destruct sx, sy; reflexivity).
  rewrite (Z.compare_antisym ey ex).
  change (Pos.compare_cont Eq mx my) with (Pos.compare mx my).
  change (Pos.compare_cont Eq my mx) with (Pos.compare my mx).
  rewrite (Pos.compare_antisym my mx).
  destruct sx, sy; try reflexivity;
    destruct (ey ?= ex)%Z; simpl; try reflexivity;
    destruct (my ?= mx)%positive; reflexivity.
Qed.

Lemma strict_eq_sym a b : strict_eq a b = strict_eq b a.
Proof.
  destruct a, b; simpl; try reflexivity.
  - destruct b, b0; reflexivity.
  - apply SFeqb_sym.
  - apply String.eqb_sym.
  - apply Nat.eqb_sym.
  - apply Nat.eqb_sym.
Qed.

Lemma same_identity_sym idField a b :
  same_identity idField a b = same_identity idField b a.
Proof.
  unfold same_identity.
  destruct (get_prop b idField), (get_prop a idField); try reflexivity.
  apply strict_eq_sym.
Qed.

Lemma distinct_ids_filter idField f l :
  distinct_ids idField l -> distinct_ids idField (filter f l).
Proof.
  unfold distinct_ids. induction 1 as [|x l Hx Hl IH]; simpl.
  - constructor.
  - destruct (f x); [|exact IH]. constructor; [|exact IH].
    rewrite Forall_forall in *. intros y Hy.
    apply filter_In in Hy. apply Hx. tauto.
Qed.

Lemma distinct_ids_snoc idField l x :
  distinct_ids idField l ->
  Forall (fun a => same_identity idField a x = false) l ->
  distinct_ids idField (l ++ [x]).
Proof.
  unfold distinct_ids. induction 1 as [|y l Hy Hl IH]; simpl; intros Hx.
  - constructor; constructor.
  - inversion Hx; subst. constructor; [|apply IH; assumption].
    apply Forall_app. split; [exact Hy|]. constructor; [assumption|constructor].
Qed.

(** C3.  The ADD updater on an array and a present [newItem] (one that
    passes the truthiness test) drops every element whose identity value is
    strictly equal to that of [newItem] and appends [newItem] to a new array:
    no kept element shares the identity of [newItem], which comes last, and
    identity values that were pairwise distinct stay so.  With an absent
    [newItem] the result is a new array of the same elements in the same
    order.  On anything but an array the result is [newItem] itself. *)
Theorem getUpdater_ADD_dedup_then_append (idField : string) (fresh : ref) :
  (forall r elems newItem,
     truthy newItem = true ->
     forallb object_coercible elems = true ->
     let kept :=
       filter (fun item => negb (same_identity idField newItem item)) elems in
     getUpdater ADD idField fresh (VArray r elems) newItem =
       Normal (VArray fresh (kept ++ [newItem])) /\
     Forall (fun item => same_identity idField newItem item = false) kept /\
     (distinct_ids idField elems -> distinct_ids idField (kept ++ [newItem]))) /\
  (forall r elems newItem,
     truthy newItem = false ->
     getUpdater ADD idField fresh (VArray r elems) newItem =
       Normal (VArray fresh elems)) /\
  (forall currentValue newItem,
     isArray currentValue = false ->
     getUpdater ADD idField fresh currentValue newItem = Normal newItem).
Proof.
  split; [|split].
  - intros r elems newItem Ht Hl kept.
    assert (Hkept : Forall (fun item => same_identity idField newItem item = false)
                           kept).
    { apply Forall_forall. intros x Hx. apply filter_In in Hx.
      destruct Hx as [_ Hx]. apply negb_true_iff in Hx. exact Hx. }
    split; [|split].
    + simpl. rewrite Ht.
      rewrite (filterM_differs _ _ _ (truthy_coercible _ Ht) Hl). reflexivity.
    + exact Hkept.
    + intros Hd. apply distinct_ids_snoc.
      * apply distinct_ids_filter. exact Hd.
      * eapply Forall_impl; [|exact Hkept].
        intros a Ha. rewrite same_identity_sym. exact Ha.
  - intros r elems newItem Ht. simpl. rewrite Ht. reflexivity.
  - intros currentValue newItem Ha.
    destruct currentValue; try reflexivity. discriminate.
Qed.

(** The test "updater should add item": a fresh identity is appended, and a
    second ADD of the same item leaves one copy. *)
Lemma getUpdater_ADD_witness :
  getUpdater ADD "id" 7 posts newPost =
    Normal (VArray 7 [post1; post2; post3; newPost]) /\
  getUpdater ADD "id" 8 (VArray 7 [post1; post2; post3; newPost]) newPost =
    Normal (VArray 8 [post1; post2; post3; newPost]).
Proof.
  split.
  - exact (proj1 (proj1 (getUpdater_ADD_dedup_then_append "id" 7)
                    5 [post1; post2; post3] newPost eq_refl eq_refl)).
  - exact (proj1 (proj1 (getUpdater_ADD_dedup_then_append "id" 8)
                    7 [post1; post2; post3; newPost] newPost eq_refl eq_refl)).
Defined.

(** C4.  The REMOVE updater on an array and a present [newItem] returns a
    new array that keeps, in order, exactly the elements whose identity value
    is not strictly equal to that of [newItem]; the comparison does not
    coerce, so the number 1 and the string "1" are different identities.
    With an absent [newItem] the result is a new array of the same elements.
    On anything but an array the result is [null], whatever [newItem] is. *)
Theorem getUpdater_REMOVE_filters_by_identity (idField : string) (fresh : ref) :
  (forall r elems newItem,
     truthy newItem = true ->
     forallb object_coercible elems = true ->
     let kept :=
       filter (fun item => negb (same_identity idField newItem item)) elems in
     getUpdater REMOVE idField fresh (VArray r elems) newItem =
       Normal (VArray fresh kept) /\
     (forall item, In item kept <->
                   In item elems /\ same_identity idField newItem item = false)) /\
  (forall r elems newItem,
     truthy newItem = false ->
     getUpdater REMOVE idField fresh (VArray r elems) newItem =
       Normal (VArray fresh elems)) /\
  (forall currentValue newItem,
     isArray currentValue = false ->
     getUpdater REMOVE idField fresh currentValue newItem = Normal VNull) /\
  (forall r r1 r2,
     getUpdater REMOVE "id" fresh (VArray r [VObject r1 [("id", VInt 1)]])
       (VObject r2 [("id", VString "1")]) =
     Normal (VArray fresh [VObject r1 [("id", VInt 1)]])).
Proof.
  split; [|split; [|split]].
  - intros r elems newItem Ht Hl kept. split.
    + simpl. rewrite Ht.
      rewrite (filterM_differs _ _ _ (truthy_coercible _ Ht) Hl). reflexivity.
    + intros item. unfold kept. rewrite filter_In, negb_true_iff. reflexivity.
  - intros r elems newItem Ht. simpl. rewrite Ht. reflexivity.
  - intros currentValue newItem Ha.
    destruct currentValue; try reflexivity. discriminate.
  - intros r r1 r2. reflexivity.
Qed.

(** The test "updater should remove item". *)
Lemma getUpdater_REMOVE_witness :
  getUpdater REMOVE "id" 7 posts (VObject 8 [("id", VInt 1)]) =
    Normal (VArray 7 [post2; post3]) /\
  getUpdater REMOVE "id" 7 (VObject 9 []) (VObject 8 [("id", VInt 1)]) =
    Normal VNull.
Proof.
  split.
  - exact (proj1 (proj1 (getUpdater_REMOVE_filters_by_identity "id" 7)
                    5 [post1; post2; post3] (VObject 8 [("id", VInt 1)])
                    eq_refl eq_refl)).
  - exact (proj1 (proj2 (proj2 (getUpdater_REMOVE_filters_by_identity "id" 7)))
             (VObject 9 []) (VObject 8 [("id", VInt 1)]) eq_refl).
Defined.

(** *** Property lists *)

Lemma lookup_set_prop {A : Type} k k' (v : A) l :
  lookup k (set_prop k' v l) = if String.eqb k' k then Some v else lookup k l.
Proof.
  induction l as [|[k0 v0] l IH]; simpl; [reflexivity|].
  destruct (String.eqb k0 k') eqn:E0; simpl.
  - apply String.eqb_eq in E0. subst k0.
    destruct (String.eqb k' k); reflexivity.
  - rewrite IH. destruct (String.eqb k0 k) eqn:E1; [|reflexivity].
    apply String.eqb_eq in E1. subst k0.
    rewrite (String.eqb_sym k' k), E0. reflexivity.
Qed.

Lemma lookup_None {A : Type} k (l : list (string * A)) :
  ~ In k (map fst l) -> lookup k l = None.
Proof.
  induction l as [|[k0 v0] l IH]; simpl; [reflexivity|]. intros H.
  destruct (String.eqb k0 k) eqn:E.
  - apply String.eqb_eq in E. tauto.
  - apply IH. tauto.
Qed.

Lemma lookup_Some_in {A : Type} k (l : list (string * A)) v :
  lookup k l = Some v -> In (k, v) l.
Proof.
  induction l as [|[k0 v0] l IH]; simpl; [discriminate|].
  destruct (String.eqb k0 k) eqn:E.
  - apply String.eqb_eq in E. intros [= ->]. left. congruence.
  - intros H. right. apply IH. exact H.
Qed.

Lemma lookup_in_keys {A : Type} k (l : list (string * A)) :
  In k (map fst l) <-> exists v, lookup k l = Some v.
Proof.
  split.
  - induction l as [|[k0 v0] l IH]; simpl; [tauto|].
    destruct (String.eqb k0 k) eqn:E; [eauto|].
    intros [H|H]; [|auto]. subst. rewrite String.eqb_refl in E. discriminate.
  - intros [v H]. apply lookup_Some_in in H.
    apply in_map_iff. exists (k, v). auto.
Qed.

Lemma keys_set_prop_in {A : Type} k (v : A) l :
  In k (map fst l) -> map fst (set_prop k v l) = map fst l.
Proof.
  induction l as [|[k0 v0] l IH]; simpl; [tauto|].
  destruct (String.eqb k0 k) eqn:E; simpl.
  - apply String.eqb_eq in E. subst. reflexivity.
  - intros [H|H].
    + subst. rewrite String.eqb_refl in E. discriminate.
    + rewrite (IH H). reflexivity.
Qed.

Lemma set_prop_new {A : Type} k (v : A) l :
  ~ In k (map fst l) -> set_prop k v l = l ++ [(k, v)].
Proof.
  induction l as [|[k0 v0] l IH]; simpl; [reflexivity|]. intros H.
  destruct (String.eqb k0 k) eqn:E.
  - apply String.eqb_eq in E. tauto.
  - rewrite IH by tauto. reflexivity.
Qed.

Lemma NoDup_keys_set_prop {A : Type} k (v : A) l :
  NoDup (map fst l) -> NoDup (map fst (set_prop k v l)).
Proof.
  intros H. destruct (in_dec string_dec k (map fst l)) as [Hin|Hn].
  - rewrite keys_set_prop_in by exact Hin. exact H.
  - rewrite set_prop_new by exact Hn. rewrite map_app. simpl.
    apply NoDup_app; [exact H | repeat constructor; simpl; tauto |].
    intros x Hx [<-|[]]. contradiction.
Qed.

(** Writing the properties of an object into an empty one copies it. *)
Lemma fold_set_prop_copy {A : Type} (l acc : list (string * A)) :
  NoDup (map fst (acc ++ l)) ->
  fold_left (fun a kv => set_prop (fst kv) (snd kv) a) l acc = acc ++ l.
Proof.
  revert acc. induction l as [|[k v] l IH]; intros acc H; simpl.
  - rewrite app_nil_r. reflexivity.
  - rewrite set_prop_new.
    + rewrite IH; rewrite <- app_assoc; [reflexivity | exact H].
    + rewrite map_app in H. simpl in H. apply NoDup_remove_2 in H.
      intros Hin. apply H. apply in_or_app. left. exact Hin.
Qed.

Lemma lookup_fold_set_prop {A : Type} k (b a : list (string * A)) :
  NoDup (map fst b) ->
  lookup k (fold_left (fun acc kv => set_prop (fst kv) (snd kv) acc) b a) =
  match lookup k b with Some v => Some v | None => lookup k a end.
Proof.
  revert a. induction b as [|[k0 v0] b IH]; intros a H; simpl; [reflexivity|].
  inversion H as [|? ? Hn Hb]; subst.
  rewrite (IH _ Hb), lookup_set_prop.
  destruct (String.eqb k0 k) eqn:E; [|reflexivity].
  apply String.eqb_eq in E. subst.
  rewrite (lookup_None _ _ Hn). reflexivity.
Qed.

Lemma keys_fold_set_prop {A : Type} (b a : list (string * A)) :
  (forall k, In k (map fst b) -> In k (map fst a)) ->
  map fst (fold_left (fun acc kv => set_prop (fst kv) (snd kv) acc) b a) =
  map fst a.
Proof.
  revert a. induction b as [|[k0 v0] b IH]; intros a H; simpl; [reflexivity|].
  assert (Hk : map fst (set_prop k0 v0 a) = map fst a).
  { apply keys_set_prop_in. apply H. left. reflexivity. }
  rewrite IH; [exact Hk|]. intros k Hin. rewrite Hk. apply H. right. exact Hin.
Qed.

Lemma pick_fold_lookup obj k keys acc :
  lookup k
    (fold_left
       (fun acc k =>
          match lookup k (own_entries obj) with
          | Some v => set_prop k v acc
          | None => acc
          end) keys acc) =
  match (if existsb (String.eqb k) keys then lookup k (own_entries obj)
         else None) with
  | Some v => Some v
  | None => lookup k acc
  end.
Proof.
  revert acc. induction keys as [|k0 keys IH]; intros acc; simpl; [reflexivity|].
  rewrite IH.
  destruct (String.eqb k k0) eqn:E; simpl.
  - apply String.eqb_eq in E. subst k0.
    destruct (existsb (String.eqb k) keys);
      destruct (lookup k (own_entries obj)) eqn:L; try reflexivity.
    rewrite lookup_set_prop, String.eqb_refl. reflexivity.
  - assert (E' : String.eqb k0 k = false)
      by (rewrite String.eqb_sym; exact E).
    destruct (existsb (String.eqb k) keys);
      destruct (lookup k (own_entries obj)) eqn:L; try reflexivity;
      destruct (lookup k0 (own_entries obj)); try reflexivity;
      rewrite lookup_set_prop, E'; reflexivity.
Qed.

Lemma lookup_pick obj keys k :
  lookup k (pick obj keys) =
  if existsb (String.eqb k) keys then lookup k (own_entries obj) else None.
Proof.
  unfold pick. rewrite pick_fold_lookup. simpl.
  destruct (existsb (String.eqb k) keys); [|reflexivity].
  destruct (lookup k (own_entries obj)); reflexivity.
Qed.

Lemma NoDup_keys_pick obj keys : NoDup (map fst (pick obj keys)).
Proof.
  unfold pick.
  assert (G : forall acc, NoDup (map fst acc) ->
    NoDup (map fst (fold_left
       (fun acc k =>
          match lookup k (own_entries obj) with
          | Some v => set_prop k v acc
          | None => acc
          end) keys acc))).
  { induction keys as [|k0 keys IH]; intros acc H; simpl; [exact H|].
    apply IH. destruct (lookup k0 (own_entries obj)); [|exact H].
    apply NoDup_keys_set_prop. exact H. }
  apply G. constructor.
Qed.

Lemma existsb_eqb_In k keys :
  existsb (String.eqb k) keys = true <-> In k keys.
Proof.
  rewrite existsb_exists. split.
  - intros [x [Hin E]]. apply String.eqb_eq in E. subst. exact Hin.
  - intros H. exists k. split; [exact H | apply String.eqb_refl].
Qed.

Ltac nodup_keys :=
  unfold keys_of; simpl;
  repeat (constructor; [simpl; intuition discriminate|]); constructor.

(** C2.  The UPDATE updater on an array and a present [newItem] returns a new
    array of the same length and order in which every element whose identity
    value is strictly equal to that of [newItem] is [newItem] itself and
    every other element is unchanged.  On a single item it returns a new
    object with the keys of [currentValue], in their order: a key other than
    "__typename" that [newItem] also has takes the value [newItem] gives it,
    every other key keeps its value, and a key that only [newItem] has does
    not appear. *)
Theorem getUpdater_UPDATE_replaces_or_merges (idField : string) (fresh : ref) :
  (forall r elems newItem,
     truthy newItem = true ->
     forallb object_coercible elems = true ->
     let replaced :=
       map (fun item =>
              if same_identity idField newItem item then newItem else item)
           elems in
     getUpdater UPDATE idField fresh (VArray r elems) newItem =
       Normal (VArray fresh replaced) /\
     List.length replaced = List.length elems /\
     (forall i item,
        nth_error elems i = Some item ->
        nth_error replaced i =
          Some (if same_identity idField newItem item then newItem else item))) /\
  (forall r props r' fields,
     NoDup (keys_of props) ->
     exists merged,
       getUpdater UPDATE idField fresh (VObject r props) (VObject r' fields) =
         Normal (VObject fresh merged) /\
       keys_of merged = keys_of props /\
       (forall k,
          lookup k merged =
          match lookup k props with
          | None => None
          | Some old =>
              if String.eqb k "__typename" then Some old
              else match lookup k fields with
                   | Some new => Some new
                   | None => Some old
                   end
          end)).
Proof.
  split.
  - intros r elems newItem Ht Hl replaced. split; [|split].
    + simpl. rewrite Ht.
      rewrite (mapM_replace _ _ _ (truthy_coercible _ Ht) Hl). reflexivity.
    + apply length_map.
    + intros i item Hi. unfold replaced.
      rewrite nth_error_map, Hi. reflexivity.
  - intros r props r' fields Hnd.
    set (eligible := filter (fun key => negb (String.eqb key "__typename"))
                            (map fst props)).
    exists (spread props (pick (VObject r' fields) eligible)).
    assert (Hcopy :
      fold_left (fun a kv => set_prop (fst kv) (snd kv) a) props [] = props).
    { rewrite fold_set_prop_copy; [reflexivity | exact Hnd]. }
    assert (Hpick : forall k,
      lookup k (pick (VObject r' fields) eligible) =
      match lookup k props with
      | None => None
      | Some _ => if String.eqb k "__typename" then None else lookup k fields
      end).
    { intros k. rewrite lookup_pick. simpl.
      destruct (existsb (String.eqb k) eligible) eqn:E.
      - apply existsb_eqb_In in E. unfold eligible in E.
        apply filter_In in E. destruct E as [Hin Hk].
        apply lookup_in_keys in Hin. destruct Hin as [old ->].
        apply negb_true_iff in Hk. rewrite Hk. reflexivity.
      - destruct (lookup k props) as [old|] eqn:L; [|reflexivity].
        destruct (String.eqb k "__typename") eqn:T; [reflexivity|].
        exfalso. apply not_true_iff_false in E. apply E.
        apply existsb_eqb_In. unfold eligible. apply filter_In. split.
        + apply lookup_in_keys. eauto.
        + rewrite T. reflexivity. }
    split; [reflexivity|]. split.
    + unfold keys_of, spread. rewrite Hcopy. apply keys_fold_set_prop.
      intros k Hin. apply lookup_in_keys in Hin. destruct Hin as [v Hv].
      rewrite Hpick in Hv. apply lookup_in_keys.
      destruct (lookup k props); [eauto | discriminate].
    + intros k. unfold spread. rewrite Hcopy.
      rewrite lookup_fold_set_prop by apply NoDup_keys_pick.
      rewrite Hpick.
      destruct (lookup k props) as [old|]; [|reflexivity].
      destruct (String.eqb k "__typename"); [reflexivity|].
      destruct (lookup k fields); reflexivity.
Qed.

(** The test "updater should update item", as the code answers it: the
    matching element of a collection is replaced by the patch, a single item
    is merged with it. *)
Lemma getUpdater_UPDATE_witness :
  getUpdater UPDATE "id" 7 posts updatedPost =
    Normal (VArray 7 [post1; post2; updatedPost]) /\
  exists merged,
    getUpdater UPDATE "id" 7 post3 updatedPost = Normal (VObject 7 merged) /\
    keys_of merged = ["__typename"; "id"; "user_id"; "title"; "date"] /\
    lookup "title" merged = Some (VString "Updated post") /\
    lookup "user_id" merged = Some (VInt 9).
Proof.
  split.
  - exact (proj1 (proj1 (getUpdater_UPDATE_replaces_or_merges "id" 7)
                    5 [post1; post2; post3] updatedPost eq_refl eq_refl)).
  - destruct (proj2 (getUpdater_UPDATE_replaces_or_merges "id" 7)
                3 [("__typename", VString "post"); ("id", VInt 25);
                   ("user_id", VInt 9); ("title", VString "On the road");
                   ("date", VString "2018-12-25")]
                6 [("id", VInt 25); ("title", VString "Updated post");
                   ("__typename", VString "post")]
                ltac:(nodup_keys)) as [merged [H1 [H2 H3]]].
    exists merged. split; [exact H1|]. split; [exact H2|].
    split; [exact (H3 "title") | exact (H3 "user_id")].
Defined.

(** ** Array discovery *)

Lemma findArray_object_cons r k x rest :
  findArrayInObject (VObject r ((k, x) :: rest)) =
  match findArrayInObject x with
  | Some p => Some (k :: p)
  | None => findArrayInObject (VObject r rest)
  end.
Proof. reflexivity. Qed.

Lemma reaches_later r kv rest p :
  reaches (VObject r rest) p -> reaches (VObject r (kv :: rest)) p.
Proof.
  intros H. inversion H; subst.
  eapply reaches_property; [right; eassumption | assumption].
Qed.

Lemma findArray_sound root :
  forall p, findArrayInObject root = Some p -> reaches root p.
Proof.
  induction root using value_nested_ind; intros p Hp; try discriminate.
  - induction props as [|[k x] rest IHrest].
    + discriminate.
    + inversion H as [|? ? Hx Hrest]; subst. simpl in Hx.
      rewrite findArray_object_cons in Hp.
      destruct (findArrayInObject x) as [q|] eqn:E.
      * injection Hp as <-.
        eapply reaches_property; [left; reflexivity | apply Hx; reflexivity].
      * apply reaches_later. apply IHrest; assumption.
  - injection Hp as <-. constructor.
Qed.

Lemma findArray_in_props r props k x q :
  In (k, x) props -> findArrayInObject x = Some q ->
  exists p, findArrayInObject (VObject r props) = Some p.
Proof.
  induction props as [|[k0 x0] rest IH]; intros Hin Hq; [contradiction|].
  rewrite findArray_object_cons.
  destruct (findArrayInObject x0) as [q0|] eqn:E; [eauto|].
  destruct Hin as [Heq|Hin].
  - injection Heq as -> ->. congruence.
  - apply IH; assumption.
Qed.

Lemma findArray_complete root p :
  reaches root p -> exists q, findArrayInObject root = Some q.
Proof.
  induction 1 as [r elems | r props k x p Hin _ [q Hq]].
  - exists []. reflexivity.
  - eapply findArray_in_props; eassumption.
Qed.

Lemma findArray_None_iff root :
  findArrayInObject root = None <-> (forall p, ~ reaches root p).
Proof.
  split.
  - intros HN p Hr. destruct (findArray_complete _ _ Hr) as [q Hq]. congruence.
  - intros H. destruct (findArrayInObject root) as [p|] eqn:E; [|reflexivity].
    exfalso. exact (H p (findArray_sound _ _ E)).
Qed.

(** The key that is answered is the first, in enumeration order, under which
    an array can be reached. *)
Lemma findArray_first r props k p :
  findArrayInObject (VObject r props) = Some (k :: p) ->
  exists before x after,
    props = before ++ (k, x) :: after /\
    findArrayInObject x = Some p /\
    Forall (fun kv => forall q, ~ reaches (snd kv) q) before.
Proof.
  induction props as [|[k0 x0] rest IH]; intros H; [discriminate|].
  rewrite findArray_object_cons in H.
  destruct (findArrayInObject x0) as [q0|] eqn:E.
  - injection H as <- <-. exists [], x0, rest. repeat split; [exact E|constructor].
  - destruct (IH H) as [before [x [after [Hsplit [Hx Hb]]]]].
    exists ((k0, x0) :: before), x, after. split; [|split].
    + rewrite Hsplit. reflexivity.
    + exact Hx.
    + constructor; [|exact Hb]. simpl. apply findArray_None_iff. exact E.
Qed.


Lemma findArray_None_not_array root :
  findArrayInObject root = None -> isArray root = false.
Proof. destruct root; try reflexivity. discriminate. Qed.

Lemma distinct_NoDup l : distinct l = true <-> NoDup l.
Proof.
  induction l as [|k l IH]; simpl.
  - split; [constructor | reflexivity].
  - rewrite andb_true_iff, negb_true_iff, IH. split.
    + intros [Hn Hd]. constructor; [|exact Hd]. intros Hin.
      apply existsb_eqb_In in Hin. congruence.
    + intros H. inversion H; subst. split; [|assumption].
      apply not_true_iff_false. intros Hin. apply existsb_eqb_In in Hin. tauto.
Qed.

Lemma well_formed_object r props :
  well_formed (VObject r props) = true ->
  NoDup (map fst props) /\
  (forall k x, In (k, x) props -> well_formed x = true).
Proof.
  simpl. rewrite andb_true_iff, distinct_NoDup. intros [Hd Hall].
  split; [exact Hd|]. clear Hd.
  induction props as [|[k0 x0] rest IH]; intros k x Hin; [contradiction|].
  apply andb_true_iff in Hall. destruct Hall as [Hx Hrest].
  destruct Hin as [Heq|Hin]; [congruence | eauto].
Qed.

Lemma lookup_distinct {A : Type} k (x : A) l :
  NoDup (map fst l) -> In (k, x) l -> lookup k l = Some x.
Proof.
  induction l as [|[k0 x0] l IH]; simpl; intros Hd Hin; [contradiction|].
  inversion Hd as [|? ? Hn Hd']; subst.
  destruct Hin as [Heq|Hin].
  - injection Heq as -> ->. rewrite String.eqb_refl. reflexivity.
  - destruct (String.eqb k0 k) eqn:E; [|auto].
    apply String.eqb_eq in E. subst. exfalso. apply Hn.
    apply in_map_iff. exists (k, x). auto.
Qed.

Lemma set_prop_same {A : Type} k (x : A) l :
  lookup k l = Some x -> set_prop k x l = l.
Proof.
  induction l as [|[k0 x0] l IH]; simpl; [discriminate|].
  destruct (String.eqb k0 k) eqn:E.
  - apply String.eqb_eq in E. intros [= ->]. subst. reflexivity.
  - intros H. rewrite (IH H). reflexivity.
Qed.

(** Reading along a discovered path ends at the array. *)
Lemma read_path_reaches root p :
  reaches root p -> well_formed root = true ->
  exists r elems, read_path root p = Normal (VArray r elems).
Proof.
  induction 1 as [r elems | r props k x p Hin Hr IH]; intros Hwf.
  - exists r, elems. reflexivity.
  - destruct (well_formed_object _ _ Hwf) as [Hd Hall].
    simpl. rewrite (lookup_distinct _ _ _ Hd Hin). simpl.
    apply IH. exact (Hall _ _ Hin).
Qed.

(** Writing back what was read along a discovered path changes nothing. *)
Lemma setValueByPath_read_back root p :
  reaches root p -> well_formed root = true ->
  forall current,
    read_path root p = Normal current ->
    setValueByPath root p current = Normal root.
Proof.
  induction 1 as [r elems | r props k x p Hin Hr IH]; intros Hwf current Hread.
  - reflexivity.
  - destruct (well_formed_object _ _ Hwf) as [Hd Hall].
    pose proof (lookup_distinct _ _ _ Hd Hin) as Hk.
    simpl in Hread. rewrite Hk in Hread. simpl in Hread.
    destruct p as [|k' p'].
    + simpl in Hread. injection Hread as <-.
      simpl. rewrite (set_prop_same _ _ _ Hk). reflexivity.
    + change (setValueByPath (VObject r props) (k :: k' :: p') current)
        with (inner <- get_prop (VObject r props) k ;;
              inner' <- setValueByPath inner (k' :: p') current ;;
              assign (VObject r props) k inner').
      unfold get_prop at 1. rewrite Hk. unfold bind at 1.
      rewrite (IH (Hall _ _ Hin) current Hread). unfold bind, assign.
      rewrite (set_prop_same _ _ _ Hk). reflexivity.
Qed.

(** C8.  [findArrayInObject], as the specification describes it, answers the
    empty path on an array; on an object it answers the path under the first
    key, in enumeration order, below which an array can be reached, extended
    by the answer for that key's value (depth first); it answers "not found"
    exactly when no array can be reached through nested objects, and then
    the value, which is not an array, is what [getValueByPath] hands to the
    updater.  For [{featured: [...], total: 10}] the path is [featured]
    wherever [total] stands, and [{post: {...}}] has no array. *)
Theorem findArrayInObject_first_array :
  (forall r elems, findArrayInObject (VArray r elems) = Some []) /\
  (forall root p, findArrayInObject root = Some p -> reaches root p) /\
  (forall root,
     findArrayInObject root = None <-> (forall p, ~ reaches root p)) /\
  (forall r props k p,
     findArrayInObject (VObject r props) = Some (k :: p) ->
     exists before x after,
       props = before ++ (k, x) :: after /\
       findArrayInObject x = Some p /\
       Forall (fun kv => forall q, ~ reaches (snd kv) q) before) /\
  (forall root,
     findArrayInObject root = None ->
     isArray root = false /\
     getValueByPath root (findArrayInObject root) = Normal root) /\
  (forall root p,
     findArrayInObject root = Some p -> well_formed root = true ->
     exists r elems, getValueByPath root (Some p) = Normal (VArray r elems)) /\
  findArrayInObject featured_first = Some ["featured"] /\
  findArrayInObject total_first = Some ["featured"] /\
  findArrayInObject (VObject 0 [("posts", total_first)]) =
    Some ["posts"; "featured"] /\
  findArrayInObject nested_before_sibling = Some ["drafts"; "items"] /\
  findArrayInObject (VObject 0 [("post", post1)]) = None.
Proof.
  split; [reflexivity|].
  split; [exact findArray_sound|].
  split; [exact findArray_None_iff|].
  split; [exact findArray_first|].
  split.
  { intros root H. split; [apply findArray_None_not_array; exact H|].
    rewrite H. reflexivity. }
  split.
  { intros root p H Hwf. simpl.
    apply read_path_reaches; [apply findArray_sound; exact H | exact Hwf]. }
  repeat split.
Qed.

Lemma findArrayInObject_witness :
  reaches total_first ["featured"] /\
  (exists r elems,
     getValueByPath total_first (Some ["featured"]) = Normal (VArray r elems)) /\
  isArray (VObject 0 [("post", post1)]) = false.
Proof.
  destruct findArrayInObject_first_array
    as [_ [Hsound [_ [_ [Hnone [Hread _]]]]]].
  split; [|split].
  - exact (Hsound total_first ["featured"] eq_refl).
  - exact (Hread total_first ["featured"] eq_refl eq_refl).
  - exact (proj1 (Hnone (VObject 0 [("post", post1)]) eq_refl)).
Defined.

(** ** Cache patch orchestrator *)

Lemma deep_equal_refl v : deep_equal v v.
Proof.
  induction v using value_nested_ind; try constructor.
  - intros k. destruct (lookup k props) as [x|] eqn:L; simpl; [|constructor].
    apply lookup_Some_in in L. rewrite Forall_forall in H.
    exact (H (k, x) L).
  - induction H; constructor; assumption.
Qed.

Section OrchestratorFacts.

Variable FieldNode : Type.
Variable resultKeyNameFromField : FieldNode -> string.
Variable Cache : Type.
Variable cfg : OfflineConfig.
Variable fresh : ref.
Variable client : DataProxy FieldNode Cache.

Lemma payload_readable data :
  truthy data = true ->
  exists keys,
    Object_keys data = Normal keys /\
    operation_field data = hd_error keys /\
    get_prop data (or_else (hd_error keys) "undefined") =
      Normal (operation_field_value data).
Proof.
  intros Ht. pose proof (truthy_coercible _ Ht) as Hc.
  assert (HK : Object_keys data = Normal (map fst (own_entries data)))
    by (destruct data; try discriminate; reflexivity).
  exists (map fst (own_entries data)). split; [exact HK|].
  unfold operation_field_value, operation_field. rewrite HK.
  split; [reflexivity|].
  destruct (get_prop_coercible data
              (or_else (hd_error (map fst (own_entries data))) "undefined") Hc)
    as [x ->]. reflexivity.
Qed.

(** Up to [readQuery]: a payload with a truthy operation field, a recipe
    with a target query whose field name can be read. *)
Lemma patch_reaches_read data opts cache target queryField :
  truthy data = true ->
  truthy (operation_field_value data) = true ->
  updateQuery opts = Some target ->
  getOperationFieldName resultKeyNameFromField (query_of target) =
    Normal queryField ->
  patch resultKeyNameFromField cfg fresh client data opts cache =
  (cachedQueryResult <~
     try_or_return
       (readQuery client (query_of target) (variables_of target) cache) ;;
   match cachedQueryResult with
   | None => Return
   | Some (_, props) =>
       let opType :=
         match or_else (operationType opts) AUTO with
         | AUTO => getOpTypeFromOperationName cfg
                     (or_else (operation_field data) "")
         | explicit => explicit
         end in
       let mutatedItem :=
         match mapResultToUpdate opts with
         | Some f => f data
         | None => operation_field_value data
         end in
       updatedQueryData <~
         lift (produce props
                 (recipe
                    (getUpdater opType
                       (resolve_idField cfg (idField opts) mutatedItem) fresh)
                    queryField mutatedItem)) ;;
       Continue (query_of target, variables_of target, updatedQueryData)
   end).
Proof.
  intros Ht Hf Hq Hn. unfold patch. rewrite Ht. simpl negb. cbv iota.
  destruct (payload_readable data Ht) as [keys [HK [Hop Hget]]].
  rewrite HK. simpl. rewrite Hget. simpl. rewrite Hf. simpl.
  rewrite Hq. simpl. rewrite Hn. simpl. rewrite Hop. reflexivity.
Qed.

(** The recipe rebinds the query's field and nothing else: every other
    property of the cached result reaches [writeQuery] as it was read. *)
Lemma recipe_touches_one_field updaterFn queryField mutatedItem props written :
  recipe updaterFn queryField mutatedItem props = Normal written ->
  forall k, k <> queryField -> lookup k written = lookup k props.
Proof.
  unfold recipe. intros H k Hk.
  assert (Hset : forall v, lookup k (set_prop queryField v props) =
                           lookup k props).
  { intros v. rewrite lookup_set_prop.
    destruct (String.eqb queryField k) eqn:E; [|reflexivity].
    apply String.eqb_eq in E. congruence. }
  destruct (getValueByPath (or_undefined (lookup queryField props))
              (findArrayInObject (or_undefined (lookup queryField props))))
    as [current|e]; [|discriminate].
  simpl in H. destruct (updaterFn current mutatedItem) as [update|e];
    [|discriminate].
  simpl in H.
  destruct (findArrayInObject (or_undefined (lookup queryField props)))
    as [[|k0 p]|].
  - injection H as <-. apply Hset.
  - destruct (setValueByPath (or_undefined (lookup queryField props))
                (k0 :: p) update) as [w|e]; [|discriminate].
    simpl in H. injection H as <-. apply Hset.
  - injection H as <-. apply Hset.
Qed.

(** C5.  [updateCache] returns normally, with no [writeQuery] call and the
    cache as it was, when the payload is absent or its operation field holds
    a falsy value, and when the invocation gets as far as [readQuery] (the
    recipe names a target query whose field name can be read) and that call
    throws or hands back nothing.  Whatever the other arguments are, a cache
    whose reads all miss sees no [writeQuery] call. *)
Theorem updateCache_skips_without_write data opts cache :
  (truthy data = false \/ truthy (operation_field_value data) = false ->
   updateCache resultKeyNameFromField cfg fresh client data opts cache =
     ([], Normal cache)) /\
  (forall target queryField,
     truthy data = true ->
     truthy (operation_field_value data) = true ->
     updateQuery opts = Some target ->
     getOperationFieldName resultKeyNameFromField (query_of target) =
       Normal queryField ->
     (exists e, readQuery client (query_of target) (variables_of target) cache
                = Throw e) \/
     readQuery client (query_of target) (variables_of target) cache
       = Normal None ->
     updateCache resultKeyNameFromField cfg fresh client data opts cache =
       ([], Normal cache)) /\
  ((forall query vars,
      (exists e, readQuery client query vars cache = Throw e) \/
      readQuery client query vars cache = Normal None) ->
   fst (updateCache resultKeyNameFromField cfg fresh client data opts cache)
     = []).
Proof.
  split; [|split].
  - intros H. unfold updateCache, patch.
    destruct (truthy data) eqn:Ht; [|reflexivity].
    destruct H as [H|H]; [discriminate|].
    destruct (payload_readable data Ht) as [keys [HK [_ Hget]]].
    simpl. rewrite HK. simpl. rewrite Hget. simpl. rewrite H. reflexivity.
  - intros target queryField Ht Hf Hq Hn Hread. unfold updateCache.
    rewrite (patch_reaches_read data opts cache target queryField Ht Hf Hq Hn).
    destruct Hread as [[e ->]| ->]; reflexivity.
  - intros Hmiss. unfold updateCache, patch.
    destruct (truthy data); [|reflexivity]. simpl.
    destruct (Object_keys data) as [keys|e]; [|reflexivity]. simpl.
    destruct (get_prop data (or_else (hd_error keys) "undefined"))
      as [field|e]; [|reflexivity]. simpl.
    destruct (truthy field); [|reflexivity]. simpl.
    destruct (updateQuery opts) as [target|]; [|reflexivity]. simpl.
    destruct (getOperationFieldName resultKeyNameFromField (query_of target))
      as [queryField|e]; [|reflexivity]. simpl.
    destruct (Hmiss (query_of target) (variables_of target)) as [[e ->]| ->];
      reflexivity.
Qed.

(** What the recipe leaves when the updater hands its argument back: the
    draft with the query's field bound to the value it already had. *)
Lemma recipe_identity queryField mutatedItem r props :
  well_formed (VObject r props) = true ->
  recipe (fun currentValue _ => Normal currentValue) queryField mutatedItem
         props =
  Normal (set_prop queryField (or_undefined (lookup queryField props)) props).
Proof.
  intros Hwf. unfold recipe.
  set (v := or_undefined (lookup queryField props)).
  destruct (findArrayInObject v) as [p|] eqn:Hp; [|reflexivity].
  pose proof (findArray_sound _ _ Hp) as Hr.
  assert (Hv : well_formed v = true).
  { unfold v. destruct (lookup queryField props) as [x|] eqn:L; [|reflexivity].
    apply lookup_Some_in in L.
    exact (proj2 (well_formed_object _ _ Hwf) _ _ L). }
  destruct (read_path_reaches _ _ Hr Hv) as [ra [elems Hread]].
  simpl getValueByPath. rewrite Hread. simpl.
  destruct p as [|k p'].
  - simpl in Hread. injection Hread as <-. reflexivity.
  - rewrite (setValueByPath_read_back _ _ Hr Hv _ Hread). reflexivity.
Qed.

(** C10.  When the payload's operation field is truthy, neither the recipe
    nor the field name gives an intent other than AUTO, and [readQuery]
    hands back a result, the updater is the identity and [writeQuery] is
    called once, with data deep-equal to that result: the result itself when
    it has the query's field, and otherwise the result with that field bound
    to [undefined]. *)
Theorem updateCache_AUTO_writes_back data opts cache target queryField r props :
  truthy data = true ->
  truthy (operation_field_value data) = true ->
  operationType opts = None \/ operationType opts = Some AUTO ->
  getOpTypeFromOperationName cfg (or_else (operation_field data) "") = AUTO ->
  updateQuery opts = Some target ->
  getOperationFieldName resultKeyNameFromField (query_of target) =
    Normal queryField ->
  readQuery client (query_of target) (variables_of target) cache =
    Normal (Some (r, props)) ->
  well_formed (VObject r props) = true ->
  let written :=
    set_prop queryField (or_undefined (lookup queryField props)) props in
  (forall idFieldName currentValue newItem,
     getUpdater AUTO idFieldName fresh currentValue newItem =
       Normal currentValue) /\
  updateCache resultKeyNameFromField cfg fresh client data opts cache =
    ([(query_of target, variables_of target, written)],
     writeQuery client (query_of target) (variables_of target) written cache) /\
  deep_equal (VObject r written) (VObject r props) /\
  (In queryField (keys_of props) -> written = props).
Proof.
  intros Ht Hf Hexplicit Hname Hq Hn Hread Hwf written.
  split; [reflexivity|]. split; [|split].
  - unfold updateCache.
    rewrite (patch_reaches_read data opts cache target queryField Ht Hf Hq Hn).
    rewrite Hread. simpl.
    assert (Htype : match or_else (operationType opts) AUTO with
                    | AUTO => getOpTypeFromOperationName cfg
                                (or_else (operation_field data) "")
                    | explicit => explicit
                    end = AUTO).
    { destruct Hexplicit as [-> | ->]; simpl; exact Hname. }
    rewrite Htype.
    change (getUpdater AUTO
              (resolve_idField cfg (idField opts)
                 match mapResultToUpdate opts with
                 | Some f => f data
                 | None => operation_field_value data
                 end) fresh)
      with (fun (currentValue _ : value) => Normal currentValue).
    unfold produce. rewrite (recipe_identity _ _ r props Hwf). reflexivity.
  - constructor. intros k. unfold written. rewrite lookup_set_prop.
    destruct (String.eqb queryField k) eqn:E; [|apply deep_equal_refl].
    apply String.eqb_eq in E. subst k.
    destruct (lookup queryField props); apply deep_equal_refl.
  - intros Hin. apply lookup_in_keys in Hin. destruct Hin as [x Hx].
    unfold written. rewrite Hx. simpl. apply set_prop_same. exact Hx.
Qed.

End OrchestratorFacts.

(** The test "should not update empty query": nothing was written for the
    target query, the read misses and no write follows. *)
Lemma updateCache_skip_witness :
  updateCache (fun name => name) offlineConfig 7 one_query_client
    createPost_payload update_posts None = ([], Normal None) /\
  updateCache (fun name => name) offlineConfig 7 one_query_client
    VNull update_posts primed = ([], Normal primed).
Proof.
  split.
  - exact (proj1 (proj2
      (updateCache_skips_without_write string (fun name => name) _
         offlineConfig 7 one_query_client createPost_payload update_posts None))
      (BareDocument postsQuery) "posts" eq_refl eq_refl eq_refl eq_refl
      (or_introl (ex_intro _ (HostError "cache miss") eq_refl))).
  - exact (proj1
      (updateCache_skips_without_write string (fun name => name) _
         offlineConfig 7 one_query_client VNull update_posts primed)
      (or_introl eq_refl)).
Defined.

(** An operation whose name tells nothing still writes the result back. *)
Lemma updateCache_AUTO_witness :
  updateCache (fun name => name) offlineConfig 7 one_query_client
    syncPost_payload update_posts primed =
  ([(postsQuery, [], [("posts", posts)])], Normal primed).
Proof.
  exact (proj1 (proj2
    (updateCache_AUTO_writes_back string (fun name => name) _
       offlineConfig 7 one_query_client syncPost_payload update_posts primed
       (BareDocument postsQuery) "posts" 20 [("posts", posts)]
       eq_refl eq_refl (or_introl eq_refl) eq_refl eq_refl eq_refl eq_refl
       eq_refl))).
Defined.

(** The three end-to-end tests of the suite, on the one-query client. *)
Example updateCache_should_add_item :
  updateCache (fun name => name) offlineConfig 7 one_query_client
    createPost_payload update_posts primed =
  ([(postsQuery, [], [("posts", VArray 7 [post1; post2; post3; newPost])])],
   Normal (Some [("posts", VArray 7 [post1; post2; post3; newPost])])).
Proof. reflexivity. Qed.

Example updateCache_should_remove_item :
  updateCache (fun name => name) offlineConfig 7 one_query_client
    deletePost_payload update_posts primed =
  ([(postsQuery, [], [("posts", VArray 7 [post1; post2])])],
   Normal (Some [("posts", VArray 7 [post1; post2])])).
Proof. reflexivity. Qed.

Example updateCache_should_update_item :
  updateCache (fun name => name) offlineConfig 7 one_query_client
    updatePost_payload update_posts primed =
  ([(postsQuery, [], [("posts", VArray 7 [post1; post2; updatedPost])])],
   Normal (Some [("posts", VArray 7 [post1; post2; updatedPost])])).
Proof. reflexivity. Qed.

Lemma getOpType_witness :
  names_category offlineConfig ADD "createPost" /\
  (forall c, c <> AUTO -> ~ names_category offlineConfig c "syncPost").
Proof.
  destruct getOpType_classifies_by_prefix as [Hauto [Hsound _]].
  split.
  - apply (Hsound offlineConfig "createPost" ADD); [discriminate | reflexivity].
  - apply (proj1 (Hauto offlineConfig "syncPost")). reflexivity.
Defined.

(** ** Option builders *)

Lemma spread_onto_single {A : Type} k (v : A) options :
  lookup k options = None -> NoDup (map fst options) ->
  spread [(k, v)] options = (k, v) :: options.
Proof.
  intros Hk Hd. unfold spread. simpl.
  rewrite fold_set_prop_copy; [reflexivity|].
  simpl. constructor; [|exact Hd].
  intros Hin. apply lookup_in_keys in Hin. destruct Hin as [x Hx]. congruence.
Qed.

(** What the builders do by design: the caller's options come back as they
    are without a recipe or with a callback of the caller's; with a recipe
    and no callback slot at all, the injected callback is put in front, and
    calling it is calling [updateCache] with the recipe. *)
Lemma builders_keep_or_inject {FieldNode : Type}
  (offline : OfflineOptions FieldNode) options :
  (updateQuery offline = None \/
   truthy_option (lookup "update" options) = true ->
   getMutationOptions offline options = options) /\
  (updateQuery offline = None \/
   truthy_option (lookup "onSubscriptionData" options) = true ->
   getSubscriptionOptions offline options = options) /\
  (updateQuery offline <> None -> NoDup (map fst options) ->
   (lookup "update" options = None ->
    getMutationOptions offline options =
      ("update", InjectedCallback offline) :: options) /\
   (lookup "onSubscriptionData" options = None ->
    getSubscriptionOptions offline options =
      ("onSubscriptionData", InjectedCallback offline) :: options)) /\
  (forall resultKeyNameFromField Cache cfg fresh
          (client : DataProxy FieldNode Cache) data cache,
     invoke_injected resultKeyNameFromField cfg fresh offline client data cache =
     updateCache resultKeyNameFromField cfg fresh client data offline cache).
Proof.
  unfold getMutationOptions, getSubscriptionOptions.
  split; [|split; [|split]].
  - intros [-> | H]; [reflexivity|].
    destruct (updateQuery offline); [rewrite H|]; reflexivity.
  - intros [-> | H]; [reflexivity|].
    destruct (updateQuery offline); [rewrite H|]; reflexivity.
  - intros Hq Hd.
    destruct (updateQuery offline) as [target|]; [|congruence].
    split; intros Hk; rewrite Hk; simpl;
      apply spread_onto_single; assumption.
  - reflexivity.
Qed.

(** C9, evaluated on the code.  With a recipe and options whose [update]
    (respectively [onSubscriptionData]) property is present but holds
    [undefined], the caller has supplied no callback, yet the options come
    back without an injected one: the spread of the caller's options after
    the injected property writes [undefined] over it. *)
Theorem builders_lose_injected_callback :
  updateQuery update_posts <> None /\
  truthy_option (lookup "update" undefined_update) = false /\
  getMutationOptions update_posts undefined_update = undefined_update /\
  injected_count (getMutationOptions update_posts undefined_update) = 0 /\
  truthy_option (lookup "onSubscriptionData" undefined_onSubscriptionData)
    = false /\
  getSubscriptionOptions update_posts undefined_onSubscriptionData =
    undefined_onSubscriptionData /\
  injected_count
    (getSubscriptionOptions update_posts undefined_onSubscriptionData) = 0.
Proof. repeat split; discriminate. Qed.

(** * Further properties *)

(** ** Intent classifier *)

Lemma lower_ascii_not_upper c : is_upper (lower_ascii c) = false.
Proof. destruct c as [[] [] [] [] [] [] [] []]; reflexivity. Qed.

Lemma toLowerCase_no_upper s : has_upper (toLowerCase s) = false.
Proof.
  induction s as [|c s IH]; simpl; [reflexivity|].
  rewrite lower_ascii_not_upper, IH. reflexivity.
Qed.

Lemma prefix_no_upper p s :
  String.prefix p s = true -> has_upper s = false -> has_upper p = false.
Proof.
  revert p. induction s as [|c s IH]; intros [|a p] Hp Hs;
    try reflexivity; try discriminate.
  simpl in Hp. destruct (ascii_dec a c) as [->|]; [|discriminate].
  simpl in Hs |- *. apply orb_false_iff in Hs. destruct Hs as [Hc Hs].
  rewrite Hc. simpl. apply IH; assumption.
Qed.

(** X1.  The name is lowercased before the comparison and the configured
    prefixes are not: a category all of whose prefixes hold a capital letter
    is never the answer. *)
Theorem getOpType_capitalised_prefixes_never_match cfg opName c :
  c <> AUTO ->
  (forall p, In p (prefixes_of cfg c) -> has_upper p = true) ->
  getOpTypeFromOperationName cfg opName <> c.
Proof.
  intros Hc Hup Hres.
  destruct (getOpType_sound cfg opName c Hc Hres) as [p [Hin Hp]].
  pose proof (toLowerCase_no_upper opName) as Hlow.
  assert (Hno : has_upper p = false).
  { destruct Hp as [Hp|Hp].
    - exact (prefix_no_upper _ _ Hp Hlow).
    - pose proof (prefix_no_upper _ _ Hp Hlow) as H. simpl in H. exact H. }
  rewrite (Hup p Hin) in Hno. discriminate.
Qed.

Lemma getOpType_capitalised_witness :
  getOpTypeFromOperationName (setConfig offlineConfig capitalised_add)
    "CreatePost" <> ADD.
Proof.
  apply (getOpType_capitalised_prefixes_never_match
           (setConfig offlineConfig capitalised_add) "CreatePost" ADD).
  - discriminate.
  - simpl. intros p [<-|[]]. reflexivity.
Defined.

Lemma toLowerCase_app a b :
  toLowerCase (a ++ b) = (toLowerCase a ++ toLowerCase b)%string.
Proof. induction a as [|c a IH]; simpl; [reflexivity | rewrite IH; reflexivity]. Qed.

Lemma prefix_app p a b :
  String.prefix p a = true -> String.prefix p (a ++ b) = true.
Proof.
  revert p. induction a as [|c a IH]; intros [|x p] H; simpl in *;
    try reflexivity; try discriminate.
  - destruct b; reflexivity.
  - destruct (ascii_dec x c); [apply IH; exact H | discriminate].
Qed.

Lemma names_category_app cfg c opName rest :
  names_category cfg c opName ->
  names_category cfg c (opName ++ rest)%string.
Proof.
  intros [p [Hin H]]. exists p. split; [exact Hin|].
  unfold startsWith in *. rewrite toLowerCase_app.
  destruct H as [H|H]; [left|right]; apply prefix_app; exact H.
Qed.

(** X2.  With the built-in lists, what follows a recognised prefix cannot
    change the category: a name classified ADD, REMOVE or UPDATE keeps its
    category however it is continued ("RemoveAddendum" is a removal). *)
Theorem getOpType_default_stable_under_continuation opName rest c :
  c <> AUTO ->
  getOpTypeFromOperationName offlineConfig opName = c ->
  getOpTypeFromOperationName offlineConfig (opName ++ rest)%string = c.
Proof.
  intros Hc H. apply getOpType_default_iff; [exact Hc|].
  apply names_category_app. apply getOpType_default_iff; assumption.
Qed.

Lemma getOpType_continuation_witness :
  getOpTypeFromOperationName offlineConfig "RemoveAddendum" = REMOVE.
Proof.
  apply (getOpType_default_stable_under_continuation "Remove" "Addendum" REMOVE).
  - discriminate.
  - reflexivity.
Defined.

(** X3.  With the built-in lists, a name that starts with a prefix of a
    category has that category, and so has the name behind "on" in any
    capitalisation ("onCreatePost", "OnCreatePost"). *)
Theorem getOpType_default_subscription_names on opName c p :
  toLowerCase on = "on" ->
  In p (prefixes_of offlineConfig c) ->
  startsWith (toLowerCase opName) p = true ->
  getOpTypeFromOperationName offlineConfig opName = c /\
  getOpTypeFromOperationName offlineConfig (on ++ opName)%string = c.
Proof.
  intros Hon Hin Hp.
  assert (Hc : c <> AUTO) by (intros ->; contradiction).
  split; apply getOpType_default_iff; try exact Hc; exists p;
    (split; [exact Hin|]).
  - left. exact Hp.
  - right. unfold startsWith in *. rewrite toLowerCase_app, Hon. simpl.
    destruct (ascii_dec "o" "o"); [|contradiction].
    destruct (ascii_dec "n" "n"); [|contradiction]. exact Hp.
Qed.

Lemma getOpType_subscription_witness :
  getOpTypeFromOperationName offlineConfig "DeletedPost" = REMOVE /\
  getOpTypeFromOperationName offlineConfig "OnDeletedPost" = REMOVE.
Proof.
  apply (getOpType_default_subscription_names "On" "DeletedPost" REMOVE
           "deleted").
  - reflexivity.
  - simpl. tauto.
  - reflexivity.
Defined.

Lemma names_category_empty cfg c :
  names_category cfg c "" <-> In "" (prefixes_of cfg c).
Proof.
  split.
  - intros [p [Hin [H|H]]]; [|discriminate].
    destruct p; [exact Hin | discriminate].
  - intros Hin. exists "". split; [exact Hin | left; reflexivity].
Qed.

(** X4.  The empty prefix.  A payload without keys gives the empty name, and
    the empty name is AUTO exactly when no list holds the empty prefix.  A
    list that holds it matches every name: in the UPDATE list it turns every
    name into an UPDATE. *)
Theorem getOpType_empty_prefix cfg :
  (getOpTypeFromOperationName cfg "" = AUTO <->
   ~ In "" (cfgPrefixesForAdd cfg) /\
   ~ In "" (cfgPrefixesForRemove cfg) /\
   ~ In "" (cfgPrefixesForUpdate cfg)) /\
  (In "" (cfgPrefixesForUpdate cfg) ->
   forall opName, getOpTypeFromOperationName cfg opName = UPDATE).
Proof.
  split.
  - rewrite getOpType_AUTO_iff. split.
    + intros H. repeat split; intros Hin.
      * apply (H ADD); [discriminate | apply names_category_empty; exact Hin].
      * apply (H REMOVE); [discriminate | apply names_category_empty; exact Hin].
      * apply (H UPDATE); [discriminate | apply names_category_empty; exact Hin].
    + intros [HA [HR HU]] c Hc Hn. apply names_category_empty in Hn.
      destruct c; simpl in Hn; tauto.
  - intros Hin opName.
    apply (proj1 (getOpType_last_row_wins cfg opName)).
    exists "". split; [exact Hin|]. left. unfold startsWith.
    destruct (toLowerCase opName); reflexivity.
Qed.

Lemma getOpType_empty_prefix_witness :
  getOpTypeFromOperationName offlineConfig "" = AUTO /\
  getOpTypeFromOperationName
    (setConfig offlineConfig
       {| ovPrefixesForRemove := None; ovPrefixesForUpdate := Some [""];
          ovPrefixesForAdd := None; ovGetIdFieldFromObject := None;
          ovIdField := None |}) "createPost" = UPDATE.
Proof.
  split.
  - apply (proj1 (getOpType_empty_prefix offlineConfig)). simpl.
    repeat split; intuition discriminate.
  - apply (proj2 (getOpType_empty_prefix _)). simpl. tauto.
Defined.

(** ** Configuration store *)


(** ** Update strategies *)

Lemma get_prop_nullish v k : nullish v = true -> get_prop v k = Throw TypeError.
Proof. destruct v; simpl; try discriminate; reflexivity. Qed.

Lemma nullish_or_coercible v : nullish v = true \/ object_coercible v = true.
Proof. destruct v; simpl; auto. Qed.

Lemma filterM_nullish_throws idField newItem elems :
  object_coercible newItem = true ->
  existsb nullish elems = true ->
  filterM (differs idField newItem) elems = Throw TypeError.
Proof.
  intros Hn. induction elems as [|x l IH]; simpl; [discriminate|].
  destruct (nullish_or_coercible x) as [Hx|Hx].
  - intros _. unfold differs. rewrite (get_prop_nullish _ _ Hx). reflexivity.
  - assert (Hnot : nullish x = false)
      by (unfold nullish; rewrite Hx; reflexivity).
    rewrite Hnot. simpl. intros Hl.
    rewrite (differs_same_identity _ _ _ Hn Hx). simpl.
    rewrite (IH Hl). reflexivity.
Qed.

Lemma mapM_nullish_throws idField newItem elems :
  object_coercible newItem = true ->
  existsb nullish elems = true ->
  mapM (replace_if_same idField newItem) elems = Throw TypeError.
Proof.
  intros Hn. induction elems as [|x l IH]; simpl; [discriminate|].
  destruct (nullish_or_coercible x) as [Hx|Hx].
  - intros _. unfold replace_if_same.
    rewrite (get_prop_nullish _ _ Hx). reflexivity.
  - assert (Hnot : nullish x = false)
      by (unfold nullish; rewrite Hx; reflexivity).
    rewrite Hnot. simpl. intros Hl.
    rewrite (replace_same_identity _ _ _ Hn Hx). simpl.
    rewrite (IH Hl). reflexivity.
Qed.

Lemma getUpdater_nullish_throws opType idField fresh r elems newItem :
  opType <> AUTO ->
  truthy newItem = true ->
  existsb nullish elems = true ->
  getUpdater opType idField fresh (VArray r elems) newItem = Throw TypeError.
Proof.
  intros Hop Ht Hnull. pose proof (truthy_coercible _ Ht) as Hn.
  destruct opType; [congruence| | |]; simpl; rewrite Ht.
  - rewrite (filterM_nullish_throws _ _ _ Hn Hnull). reflexivity.
  - rewrite (filterM_nullish_throws _ _ _ Hn Hnull). reflexivity.
  - rewrite (mapM_nullish_throws _ _ _ Hn Hnull). reflexivity.
Qed.

(** X6.  A [null] or [undefined] element makes the ADD, REMOVE and UPDATE
    updaters throw a [TypeError] as soon as there is an item to compare
    with: the identity field of the element cannot be read. *)
Theorem getUpdater_nullish_element_throws opType idField fresh r elems newItem :
  opType <> AUTO ->
  truthy newItem = true ->
  existsb nullish elems = true ->
  getUpdater opType idField fresh (VArray r elems) newItem = Throw TypeError.
Proof.
  intros Hop Ht Hnull.
  destruct (nullish_or_coercible newItem) as [Hbad|_].
  - destruct newItem; discriminate.
  - apply getUpdater_nullish_throws; assumption.
Qed.

Lemma getUpdater_nullish_element_witness :
  getUpdater REMOVE "id" 7 (VArray 5 [post1; VNull; post3]) post3 =
  Throw TypeError.
Proof.
  apply getUpdater_nullish_element_throws;
    [discriminate | reflexivity | reflexivity].
Defined.

(** Every updater but the identity, on an array of readable elements. *)
Lemma getUpdater_on_array opType idField fresh r elems newItem :
  opType <> AUTO ->
  forallb object_coercible elems = true ->
  getUpdater opType idField fresh (VArray r elems) newItem =
  Normal (VArray fresh (patched opType idField newItem elems)).
Proof.
  intros Hop Hl. unfold patched.
  destruct opType; [congruence| | |]; simpl;
    destruct (truthy newItem) eqn:Ht; try reflexivity.
  - rewrite (filterM_differs _ _ _ (truthy_coercible _ Ht) Hl). reflexivity.
  - rewrite (filterM_differs _ _ _ (truthy_coercible _ Ht) Hl). reflexivity.
  - rewrite (mapM_replace _ _ _ (truthy_coercible _ Ht) Hl). reflexivity.
Qed.

Lemma strict_eq_undefined a : strict_eq a VUndefined = true <-> a = VUndefined.
Proof. destruct a; simpl; split; congruence. Qed.

Lemma same_identity_undefined idField newItem item :
  get_prop newItem idField = Normal VUndefined ->
  object_coercible item = true ->
  negb (same_identity idField newItem item) = identity_defined idField item.
Proof.
  intros Hn Hi. unfold same_identity, identity_defined. rewrite Hn.
  destruct (get_prop_coercible item idField Hi) as [a ->].
  destruct a; reflexivity.
Qed.

Lemma filter_ext_coercible (f g : value -> bool) l :
  forallb object_coercible l = true ->
  (forall x, object_coercible x = true -> f x = g x) ->
  filter f l = filter g l.
Proof.
  intros Hl H. induction l as [|x l IH]; [reflexivity|].
  simpl in Hl. apply andb_true_iff in Hl. destruct Hl as [Hx Hl].
  simpl. rewrite (H x Hx), (IH Hl). reflexivity.
Qed.

(** X7.  An item that lacks the identity field has the identity
    [undefined], and so has every element that lacks it: REMOVE with such an
    item drops all elements without an identity, ADD replaces all of them by
    the one new item. *)
Theorem getUpdater_missing_identity_matches_missing
  idField fresh r elems newItem :
  truthy newItem = true ->
  get_prop newItem idField = Normal VUndefined ->
  forallb object_coercible elems = true ->
  getUpdater REMOVE idField fresh (VArray r elems) newItem =
    Normal (VArray fresh (filter (identity_defined idField) elems)) /\
  getUpdater ADD idField fresh (VArray r elems) newItem =
    Normal (VArray fresh (filter (identity_defined idField) elems ++ [newItem])).
Proof.
  intros Ht Hid Hl.
  assert (Hf : filter (fun item => negb (same_identity idField newItem item))
                      elems = filter (identity_defined idField) elems).
  { apply filter_ext_coercible; [exact Hl|]. intros x Hx.
    apply same_identity_undefined; assumption. }
  split.
  - rewrite getUpdater_on_array by (discriminate || exact Hl).
    unfold patched. rewrite Ht, Hf. reflexivity.
  - rewrite getUpdater_on_array by (discriminate || exact Hl).
    unfold patched. rewrite Ht, Hf. reflexivity.
Qed.

Lemma getUpdater_missing_identity_witness :
  getUpdater REMOVE "id" 7
    (VArray 5 [post1; anonymous_post; post2; VObject 51 []]) anonymous_post =
    Normal (VArray 7 [post1; post2]).
Proof.
  exact (proj1 (getUpdater_missing_identity_matches_missing "id" 7 5
                  [post1; anonymous_post; post2; VObject 51 []] anonymous_post
                  eq_refl eq_refl eq_refl)).
Defined.

Lemma filter_all_true {A : Type} (f : A -> bool) l :
  Forall (fun x => f x = true) l -> filter f l = l.
Proof.
  induction 1 as [|x l Hx Hl IH]; simpl; [reflexivity|].
  rewrite Hx, IH. reflexivity.
Qed.

Lemma filter_idem {A : Type} (f : A -> bool) l :
  filter f (filter f l) = filter f l.
Proof.
  apply filter_all_true. apply Forall_forall. intros x Hx.
  apply filter_In in Hx. tauto.
Qed.

Lemma forallb_filter_coercible f l :
  forallb object_coercible l = true ->
  forallb object_coercible (filter f l) = true.
Proof.
  rewrite !forallb_forall. intros H x Hx. apply filter_In in Hx.
  apply H. tauto.
Qed.

(** X8.  ADD twice with the same item.  When the identity of the item is
    strictly equal to itself the second ADD changes nothing; when it is not
    (the identity is [NaN]) every ADD appends one more copy. *)
Theorem getUpdater_ADD_twice idField fresh fresh' r elems newItem :
  truthy newItem = true ->
  forallb object_coercible elems = true ->
  let kept :=
    filter (fun item => negb (same_identity idField newItem item)) elems in
  (x <- getUpdater ADD idField fresh (VArray r elems) newItem ;;
   getUpdater ADD idField fresh' x newItem) =
  Normal (VArray fresh'
            (if same_identity idField newItem newItem
             then kept ++ [newItem]
             else kept ++ [newItem; newItem])).
Proof.
  intros Ht Hl kept. pose proof (truthy_coercible _ Ht) as Hn.
  rewrite getUpdater_on_array by (discriminate || exact Hl).
  unfold patched. rewrite Ht. fold kept. cbn [bind].
  assert (Hl' : forallb object_coercible (kept ++ [newItem]) = true).
  { rewrite forallb_app. unfold kept.
    rewrite (forallb_filter_coercible _ _ Hl). simpl. rewrite Hn. reflexivity. }
  rewrite getUpdater_on_array by (discriminate || exact Hl').
  unfold patched. rewrite Ht. rewrite filter_app. unfold kept.
  rewrite filter_idem. simpl.
  destruct (same_identity idField newItem newItem); simpl.
  - rewrite app_nil_r. reflexivity.
  - rewrite <- app_assoc. reflexivity.
Qed.

Lemma getUpdater_ADD_twice_witness :
  (x <- getUpdater ADD "id" 7 posts newPost ;; getUpdater ADD "id" 8 x newPost)
  = Normal (VArray 8 [post1; post2; post3; newPost]) /\
  (x <- getUpdater ADD "id" 7 (VArray 5 [post1])
          (VObject 52 [("id", VNumber S754_nan)]) ;;
   getUpdater ADD "id" 8 x (VObject 52 [("id", VNumber S754_nan)]))
  = Normal (VArray 8 [post1; VObject 52 [("id", VNumber S754_nan)];
                      VObject 52 [("id", VNumber S754_nan)]]).
Proof.
  split.
  - exact (getUpdater_ADD_twice "id" 7 8 5 [post1; post2; post3] newPost
             eq_refl eq_refl).
  - exact (getUpdater_ADD_twice "id" 7 8 5 [post1]
             (VObject 52 [("id", VNumber S754_nan)]) eq_refl eq_refl).
Defined.

(** X9.  REMOVE after ADD of the same item, whose identity is strictly equal
    to itself, leaves what REMOVE alone leaves; when no element had the
    identity of the item these are the elements the ADD started from. *)
Theorem getUpdater_REMOVE_undoes_ADD idField fresh fresh' r elems newItem :
  truthy newItem = true ->
  forallb object_coercible elems = true ->
  same_identity idField newItem newItem = true ->
  (x <- getUpdater ADD idField fresh (VArray r elems) newItem ;;
   getUpdater REMOVE idField fresh' x newItem) =
  Normal (VArray fresh'
            (filter (fun item => negb (same_identity idField newItem item))
                    elems)) /\
  (Forall (fun item => same_identity idField newItem item = false) elems ->
   (x <- getUpdater ADD idField fresh (VArray r elems) newItem ;;
    getUpdater REMOVE idField fresh' x newItem) =
   Normal (VArray fresh' elems)).
Proof.
  intros Ht Hl Hrefl. pose proof (truthy_coercible _ Ht) as Hn.
  set (kept := filter (fun item => negb (same_identity idField newItem item))
                      elems).
  assert (Hl' : forallb object_coercible (kept ++ [newItem]) = true).
  { rewrite forallb_app. unfold kept.
    rewrite (forallb_filter_coercible _ _ Hl). simpl. rewrite Hn. reflexivity. }
  assert (Hmain :
    (x <- getUpdater ADD idField fresh (VArray r elems) newItem ;;
     getUpdater REMOVE idField fresh' x newItem) = Normal (VArray fresh' kept)).
  { rewrite getUpdater_on_array by (discriminate || exact Hl).
    unfold patched. rewrite Ht. fold kept. cbn [bind].
    rewrite getUpdater_on_array by (discriminate || exact Hl').
    unfold patched. rewrite Ht. rewrite filter_app. unfold kept.
    rewrite filter_idem. simpl. rewrite Hrefl. simpl.
    rewrite app_nil_r. reflexivity. }
  split; [exact Hmain|].
  intros Hnone. rewrite Hmain. unfold kept.
  rewrite filter_all_true; [reflexivity|].
  eapply Forall_impl; [|exact Hnone]. intros a Ha. simpl. rewrite Ha. reflexivity.
Qed.

Lemma getUpdater_REMOVE_undoes_ADD_witness :
  (x <- getUpdater ADD "id" 7 posts newPost ;;
   getUpdater REMOVE "id" 8 x newPost) =
  Normal (VArray 8 [post1; post2; post3]).
Proof.
  apply (proj2 (getUpdater_REMOVE_undoes_ADD "id" 7 8 5 [post1; post2; post3]
                  newPost eq_refl eq_refl eq_refl)).
  repeat constructor.
Defined.

(** X10.  UPDATE never inserts: when no element has the identity of the
    item the elements come back as they were.  UPDATE twice with the same
    item is UPDATE once. *)
Theorem getUpdater_UPDATE_no_insert_idempotent
  idField fresh fresh' r elems newItem :
  truthy newItem = true ->
  forallb object_coercible elems = true ->
  (Forall (fun item => same_identity idField newItem item = false) elems ->
   getUpdater UPDATE idField fresh (VArray r elems) newItem =
     Normal (VArray fresh elems)) /\
  (x <- getUpdater UPDATE idField fresh (VArray r elems) newItem ;;
   getUpdater UPDATE idField fresh' x newItem) =
  Normal (VArray fresh'
            (map (fun item =>
                    if same_identity idField newItem item then newItem
                    else item) elems)).
Proof.
  intros Ht Hl. pose proof (truthy_coercible _ Ht) as Hn.
  set (repl := fun item =>
                 if same_identity idField newItem item then newItem else item).
  split.
  - intros Hnone. rewrite getUpdater_on_array by (discriminate || exact Hl).
    unfold patched. rewrite Ht. f_equal. f_equal.
    induction Hnone as [|x l Hx _ IH]; [reflexivity|].
    simpl in Hl. apply andb_true_iff in Hl. destruct Hl as [_ Hl].
    simpl. rewrite Hx, (IH Hl). reflexivity.
  - rewrite getUpdater_on_array by (discriminate || exact Hl).
    unfold patched. rewrite Ht. fold repl. cbn [bind].
    assert (Hl' : forallb object_coercible (map repl elems) = true).
    { rewrite forallb_forall in *. intros y Hy. apply in_map_iff in Hy.
      destruct Hy as [x [<- Hx]]. unfold repl.
      destruct (same_identity idField newItem x); [exact Hn | apply Hl; exact Hx]. }
    rewrite getUpdater_on_array by (discriminate || exact Hl').
    unfold patched. rewrite Ht. fold repl. f_equal. f_equal.
    rewrite map_map. apply map_ext. intros x. unfold repl.
    destruct (same_identity idField newItem x) eqn:E.
    + destruct (same_identity idField newItem newItem); reflexivity.
    + rewrite E. reflexivity.
Qed.

Lemma getUpdater_UPDATE_witness_no_insert :
  getUpdater UPDATE "id" 7 posts newPost =
    Normal (VArray 7 [post1; post2; post3]) /\
  (x <- getUpdater UPDATE "id" 7 posts updatedPost ;;
   getUpdater UPDATE "id" 8 x updatedPost) =
    Normal (VArray 8 [post1; post2; updatedPost]).
Proof.
  destruct (getUpdater_UPDATE_no_insert_idempotent "id" 7 8 5
              [post1; post2; post3] newPost eq_refl eq_refl) as [Hnone _].
  split.
  - apply Hnone. repeat constructor.
  - exact (proj2 (getUpdater_UPDATE_no_insert_idempotent "id" 7 8 5
                    [post1; post2; post3] updatedPost eq_refl eq_refl)).
Defined.

(** ** Cache patch orchestrator *)

Lemma recipe_root_array updaterFn queryField mutatedItem props r elems :
  lookup queryField props = Some (VArray r elems) ->
  recipe updaterFn queryField mutatedItem props =
  (update <- updaterFn (VArray r elems) mutatedItem ;;
   Normal (set_prop queryField update props)).
Proof. intros H. unfold recipe. rewrite H. reflexivity. Qed.

Lemma recipe_no_array updaterFn queryField mutatedItem props :
  findArrayInObject (or_undefined (lookup queryField props)) = None ->
  recipe updaterFn queryField mutatedItem props =
  (update <- updaterFn (or_undefined (lookup queryField props)) mutatedItem ;;
   Normal (set_prop queryField update props)).
Proof. intros H. unfold recipe. rewrite H. reflexivity. Qed.



Section OrchestratorMore.

Variable FieldNode : Type.
Variable resultKeyNameFromField : FieldNode -> string.
Variable Cache : Type.
Variable cfg : OfflineConfig.
Variable fresh : ref.
Variable client : DataProxy FieldNode Cache.

(** Past [readQuery]: the outcome is the recipe's. *)
Lemma updateCache_after_read data opts cache target queryField r props :
  truthy data = true ->
  truthy (operation_field_value data) = true ->
  updateQuery opts = Some target ->
  getOperationFieldName resultKeyNameFromField (query_of target) =
    Normal queryField ->
  readQuery client (query_of target) (variables_of target) cache =
    Normal (Some (r, props)) ->
  updateCache resultKeyNameFromField cfg fresh client data opts cache =
  match recipe (getUpdater (resolved_intent cfg opts data)
                           (resolved_idField cfg opts data) fresh)
               queryField (resolved_item opts data) props with
  | Normal written =>
      ([(query_of target, variables_of target, written)],
       writeQuery client (query_of target) (variables_of target) written cache)
  | Throw e => ([], Throw e)
  end.
Proof.
  intros Ht Hf Hq Hn Hread. unfold updateCache.
  rewrite (patch_reaches_read FieldNode resultKeyNameFromField Cache cfg fresh
             client data opts cache target queryField Ht Hf Hq Hn).
  rewrite Hread. simpl. unfold produce.
  fold (resolved_intent cfg opts data). fold (resolved_item opts data).
  fold (resolved_idField cfg opts data).
  destruct (recipe _ queryField (resolved_item opts data) props); reflexivity.
Qed.


(** X12.  Failures of the updater leave [updateCache] as exceptions, and
    nothing is written: a [null] or [undefined] element in the cached list
    when the intent is ADD, REMOVE or UPDATE, and a query field that is
    missing or bound to [null] when the intent is UPDATE. *)
Theorem updateCache_raises_without_write
  data opts cache target queryField r props :
  truthy data = true ->
  truthy (operation_field_value data) = true ->
  updateQuery opts = Some target ->
  getOperationFieldName resultKeyNameFromField (query_of target) =
    Normal queryField ->
  readQuery client (query_of target) (variables_of target) cache =
    Normal (Some (r, props)) ->
  (forall ra elems,
     lookup queryField props = Some (VArray ra elems) ->
     existsb nullish elems = true ->
     resolved_intent cfg opts data <> AUTO ->
     truthy (resolved_item opts data) = true ->
     updateCache resultKeyNameFromField cfg fresh client data opts cache =
       ([], Throw TypeError)) /\
  (nullish (or_undefined (lookup queryField props)) = true ->
   resolved_intent cfg opts data = UPDATE ->
   updateCache resultKeyNameFromField cfg fresh client data opts cache =
     ([], Throw TypeError)).
Proof.
  intros Ht Hf Hq Hn Hread. split.
  - intros ra elems Hfield Hnull Hop Hitem.
    rewrite (updateCache_after_read data opts cache target queryField r props
               Ht Hf Hq Hn Hread).
    rewrite (recipe_root_array _ _ _ _ _ _ Hfield).
    rewrite (getUpdater_nullish_throws _ _ _ _ _ _ Hop Hitem Hnull).
    reflexivity.
  - intros Hnull Hop.
    rewrite (updateCache_after_read data opts cache target queryField r props
               Ht Hf Hq Hn Hread).
    rewrite Hop.
    destruct (or_undefined (lookup queryField props)) eqn:E;
      try discriminate;
      (rewrite recipe_no_array by (rewrite E; reflexivity));
      rewrite E; reflexivity.
Qed.

(** X13.  The patch of a single value.  When no array can be reached from
    the value under the query's field (an item without lists, a scalar,
    [null], or no such field), ADD binds the field to the item and REMOVE
    binds it to [null]; [writeQuery] is called once with that result. *)
Theorem updateCache_patches_single_value
  data opts cache target queryField r props :
  truthy data = true ->
  truthy (operation_field_value data) = true ->
  updateQuery opts = Some target ->
  getOperationFieldName resultKeyNameFromField (query_of target) =
    Normal queryField ->
  readQuery client (query_of target) (variables_of target) cache =
    Normal (Some (r, props)) ->
  findArrayInObject (or_undefined (lookup queryField props)) = None ->
  (resolved_intent cfg opts data = ADD ->
   updateCache resultKeyNameFromField cfg fresh client data opts cache =
     ([(query_of target, variables_of target,
        set_prop queryField (resolved_item opts data) props)],
      writeQuery client (query_of target) (variables_of target)
        (set_prop queryField (resolved_item opts data) props) cache)) /\
  (resolved_intent cfg opts data = REMOVE ->
   updateCache resultKeyNameFromField cfg fresh client data opts cache =
     ([(query_of target, variables_of target, set_prop queryField VNull props)],
      writeQuery client (query_of target) (variables_of target)
        (set_prop queryField VNull props) cache)).
Proof.
  intros Ht Hf Hq Hn Hread Hnone.
  pose proof (findArray_None_not_array _ Hnone) as Hna.
  split; intros Hop;
    rewrite (updateCache_after_read data opts cache target queryField r props
               Ht Hf Hq Hn Hread);
    rewrite (recipe_no_array _ _ _ _ Hnone); rewrite Hop;
    destruct (or_undefined (lookup queryField props));
    try discriminate; reflexivity.
Qed.

(** X14.  With a payload to apply, a recipe without a target query, or with
    a document whose field name cannot be read, makes [updateCache] raise
    before the cache is consulted: the outcome is the same for every client,
    and nothing is written. *)
Theorem updateCache_needs_target data opts cache :
  truthy data = true ->
  truthy (operation_field_value data) = true ->
  (updateQuery opts = None ->
   updateCache resultKeyNameFromField cfg fresh client data opts cache =
     ([], Throw TypeError)) /\
  (forall target,
     updateQuery opts = Some target ->
     definitions (query_of target) = [] \/
     (exists def rest, definitions (query_of target) = def :: rest /\
                       selections def = []) ->
     updateCache resultKeyNameFromField cfg fresh client data opts cache =
       ([], Throw TypeError)).
Proof.
  intros Ht Hf.
  destruct (payload_readable data Ht) as [keys [HK [_ Hget]]].
  split.
  - intros Hq. unfold updateCache, patch. rewrite Ht. simpl.
    rewrite HK. simpl. rewrite Hget. simpl. rewrite Hf. simpl.
    rewrite Hq. reflexivity.
  - intros target Hq Hdoc. unfold updateCache, patch. rewrite Ht. simpl.
    rewrite HK. simpl. rewrite Hget. simpl. rewrite Hf. simpl.
    rewrite Hq. simpl. unfold getOperationFieldName.
    destruct Hdoc as [Hd | [def [rest [Hd Hs]]]]; rewrite Hd; [reflexivity|].
    rewrite Hs. reflexivity.
Qed.

End OrchestratorMore.


Lemma updateCache_raises_witness :
  updateCache (fun name => name) offlineConfig 7 one_query_client
    createPost_payload update_posts primed_with_null = ([], Throw TypeError) /\
  updateCache (fun name => name) offlineConfig 7 one_query_client
    updatePost_payload update_post primed_null = ([], Throw TypeError).
Proof.
  split.
  - exact (proj1
      (updateCache_raises_without_write string (fun name => name) _
         offlineConfig 7 one_query_client createPost_payload update_posts
         primed_with_null (BareDocument postsQuery) "posts" 20
         [("posts", VArray 5 [post1; VNull])]
         eq_refl eq_refl eq_refl eq_refl eq_refl)
      5 [post1; VNull] eq_refl eq_refl ltac:(vm_compute; discriminate) eq_refl).
  - exact (proj2
      (updateCache_raises_without_write string (fun name => name) _
         offlineConfig 7 one_query_client updatePost_payload update_post
         primed_null (BareDocument postQuery) "post" 20 [("post", VNull)]
         eq_refl eq_refl eq_refl eq_refl eq_refl)
      eq_refl eq_refl).
Defined.

Lemma updateCache_single_value_witness :
  updateCache (fun name => name) offlineConfig 7 one_query_client
    deletePost_payload update_post primed_single =
  ([(postQuery, [], [("post", VNull)])], Normal (Some [("post", VNull)])).
Proof.
  exact (proj2
    (updateCache_patches_single_value string (fun name => name) _
       offlineConfig 7 one_query_client deletePost_payload update_post
       primed_single (BareDocument postQuery) "post" 20 [("post", post3)]
       eq_refl eq_refl eq_refl eq_refl eq_refl eq_refl)
    eq_refl).
Defined.

Lemma updateCache_needs_target_witness :
  updateCache (fun name => name) offlineConfig 7 one_query_client
    createPost_payload no_target primed = ([], Throw TypeError) /\
  updateCache (fun name => name) offlineConfig 7 one_query_client
    createPost_payload unreadable_target primed = ([], Throw TypeError).
Proof.
  split.
  - exact (proj1
      (updateCache_needs_target string (fun name => name) _ offlineConfig 7
         one_query_client createPost_payload no_target primed eq_refl eq_refl)
      eq_refl).
  - exact (proj2
      (updateCache_needs_target string (fun name => name) _ offlineConfig 7
         one_query_client createPost_payload unreadable_target primed
         eq_refl eq_refl)
      (BareDocument empty_document) eq_refl (or_introl eq_refl)).
Defined.

(** X15.  An explicit intent makes the name of the payload's field
    irrelevant: two payloads that hold the same value under different names
    are applied alike (without a mapping function, which would see the
    payload itself). *)
Theorem updateCache_explicit_intent_ignores_name
  (FieldNode : Type) (resultKeyNameFromField : FieldNode -> string)
  (Cache : Type) cfg fresh (client : DataProxy FieldNode Cache)
  opts cache intent r1 r2 name1 name2 item :
  operationType opts = Some intent ->
  intent <> AUTO ->
  mapResultToUpdate opts = None ->
  updateCache resultKeyNameFromField cfg fresh client
    (VObject r1 [(name1, item)]) opts cache =
  updateCache resultKeyNameFromField cfg fresh client
    (VObject r2 [(name2, item)]) opts cache.
Proof.
  intros Hop Hne Hmap. unfold updateCache, patch. simpl.
  rewrite !String.eqb_refl, Hop, Hmap. simpl.
  destruct intent; [congruence| | |]; reflexivity.
Qed.

Lemma updateCache_explicit_intent_witness :
  updateCache (fun name => name) offlineConfig 7 one_query_client
    (VObject 31 [("archivePost", post3)]) remove_from_posts primed =
  updateCache (fun name => name) offlineConfig 7 one_query_client
    (VObject 31 [("createPost", post3)]) remove_from_posts primed.
Proof.
  apply (updateCache_explicit_intent_ignores_name string (fun name => name) _
           offlineConfig 7 one_query_client remove_from_posts primed REMOVE).
  - reflexivity.
  - discriminate.
  - reflexivity.
Defined.




(** ** Option builders *)

(** X17.  Every option the caller passed comes back with the value the
    caller gave it, a falsy [update] or [onSubscriptionData] included; the
    one property a builder can add is its callback, and it adds it exactly
    when a recipe is given and the options do not have that property. *)
Theorem builders_return_caller_options {FieldNode : Type}
  (offline : OfflineOptions FieldNode) options :
  NoDup (map fst options) ->
  (forall k,
     lookup k (getMutationOptions offline options) =
     match lookup k options with
     | Some v => Some v
     | None => if String.eqb k "update" && recipe_given offline
               then Some (InjectedCallback offline) else None
     end) /\
  (forall k,
     lookup k (getSubscriptionOptions offline options) =
     match lookup k options with
     | Some v => Some v
     | None => if String.eqb k "onSubscriptionData" && recipe_given offline
               then Some (InjectedCallback offline) else None
     end).
Proof.
  intros Hd.
  assert (G : forall slot k,
    lookup k
      (match updateQuery offline with
       | None => options
       | Some _ =>
           if truthy_option (lookup slot options) then options
           else spread [(slot, InjectedCallback offline)] options
       end) =
    match lookup k options with
    | Some v => Some v
    | None => if String.eqb k slot && recipe_given offline
              then Some (InjectedCallback offline) else None
    end).
  { intros slot k. unfold recipe_given.
    destruct (updateQuery offline) as [target|].
    - destruct (truthy_option (lookup slot options)) eqn:E.
      + destruct (lookup k options) eqn:L; [reflexivity|].
        destruct (String.eqb k slot) eqn:Ek; [|reflexivity].
        apply String.eqb_eq in Ek. subst. rewrite L in E. discriminate.
      + unfold spread. simpl fold_left at 2.
        rewrite lookup_fold_set_prop by exact Hd.
        destruct (lookup k options); [reflexivity|].
        simpl. rewrite (String.eqb_sym slot k), andb_true_r. reflexivity.
    - destruct (lookup k options); [reflexivity|].
      rewrite andb_false_r. reflexivity. }
  split; intros k; [exact (G "update" k) | exact (G "onSubscriptionData" k)].
Qed.

Lemma builders_return_caller_options_witness :
  lookup "update" (getMutationOptions update_posts variables_only) =
    Some (InjectedCallback update_posts) /\
  lookup "variables" (getMutationOptions update_posts variables_only) =
    Some (Plain (VObject 40 [])) /\
  lookup "update" (getMutationOptions update_posts undefined_update) =
    Some (Plain VUndefined).
Proof.
  pose proof (proj1 (builders_return_caller_options update_posts variables_only
                       ltac:(repeat constructor; simpl; intuition discriminate)))
    as H1.
  pose proof (proj1 (builders_return_caller_options update_posts undefined_update
                       ltac:(repeat constructor; simpl; intuition discriminate)))
    as H2.
  split; [exact (H1 "update") | split; [exact (H1 "variables") | exact (H2 "update")]].
Defined.
